(** * Cachier 1.3.1: a localStorage wrapper with typed values and expiry

    A shallow embedding of [cachier-1.3.1.js].  The module is the function
    [(function(window, Json, undefined) { ... }(window, JSON))]: its two
    collaborators, the window's [localStorage] and the JSON library, are
    what the model takes from outside.  The store is threaded as state,
    a thrown JavaScript error is an explicit completion, and the clock
    [(new Date()).getTime()] is an argument of each operation. *)

From Stdlib Require Import ZArith Ascii String Decimal DecimalString DecimalZ.
From stdpp Require Import base option gmap strings.

Local Open Scope string_scope.
Local Open Scope Z_scope.
Set Warnings "-register-all".

(** ** JavaScript values *)

(** Numbers.  The code computes with millisecond timestamps and prints
    numbers in decimal, so the finite numbers of the model are the
    integer-valued ones, next to the three non-finite values and the
    negative zero.  [Int z] is a number of the runtime, with exact sums
    and a plain decimal string form, when [z] is a safe integer (at most
    2^53 - 1 in magnitude): the statements below that turn on a string
    form or on a sum carry that bound.  Fractions, the rounding beyond
    2^53 and the exponent notation from 1e21 on are outside the model. *)
Inductive JsNum : Type :=
  | NaN
  | PosInf
  | NegInf
  | NegZero
  | Int (z : Z).

(** The values a caller can hand to the module.  Objects are finite
    trees: arrays and plain objects with own enumerable properties. *)
Inductive JsValue : Type :=
  | JUndefined
  | JNull
  | JBool (b : bool)
  | JNumber (n : JsNum)
  | JString (s : string)
  | JSymbol (description : string)
  | JBigInt (z : Z)
  | JFunction (source : string)
  | JArray (elements : list JsValue)
  | JObject (properties : list (string * JsValue)).

Inductive JsError : Type :=
  | TypeError
  | SyntaxError
  | QuotaExceededError.

(** How a JavaScript expression completes: with a value, or abruptly. *)
Inductive Completion (A : Type) : Type :=
  | Normal (a : A)
  | Throw (e : JsError).
Arguments Normal {A} a.
Arguments Throw {A} e.

(** [typeof v] *)
Definition typeof (v : JsValue) : string :=
  match v with
  | JUndefined => "undefined"
  | JNull => "object"
  | JBool _ => "boolean"
  | JNumber _ => "number"
  | JString _ => "string"
  | JSymbol _ => "symbol"
  | JBigInt _ => "bigint"
  | JFunction _ => "function"
  | JArray _ => "object"
  | JObject _ => "object"
  end.

(** Truthiness, as [||] tests it. *)
Definition truthy (v : JsValue) : bool :=
  match v with
  | JUndefined | JNull => false
  | JBool b => b
  | JNumber NaN | JNumber NegZero | JNumber (Int 0) => false
  | JNumber _ => true
  | JString s => negb (String.eqb s "")
  | JBigInt z => negb (z =? 0)
  | JSymbol _ | JFunction _ | JArray _ | JObject _ => true
  end.

(** ** Numbers and strings *)

Definition Z_toString (z : Z) : string :=
  NilEmpty.string_of_int (Z.to_int z).

(** [Number.prototype.toString].  For [Int z] this is the string of the
    runtime when [z] is a safe integer; from 1e21 on the runtime prints an
    exponent, which is outside the model. *)
Definition Number_toString (n : JsNum) : string :=
  match n with
  | NaN => "NaN"
  | PosInf => "Infinity"
  | NegInf => "-Infinity"
  | NegZero => "0"
  | Int z => Z_toString z
  end.

Definition decimal_digit (c : ascii) : option (uint → uint) :=
  match c with
  | "0" => Some D0 | "1" => Some D1 | "2" => Some D2 | "3" => Some D3
  | "4" => Some D4 | "5" => Some D5 | "6" => Some D6 | "7" => Some D7
  | "8" => Some D8 | "9" => Some D9
  | _ => None
  end%char.

(** The value of a hexadecimal digit, from its code unit. *)
Definition hex_digit (c : ascii) : option Z :=
  let n := Z.of_nat (nat_of_ascii c) in
  if (48 <=? n) && (n <=? 57) then Some (n - 48)
  else if (97 <=? n) && (n <=? 102) then Some (n - 87)
  else if (65 <=? n) && (n <=? 70) then Some (n - 55)
  else None.

(** The longest prefix of decimal digits, and what follows it. *)
Fixpoint take_digits (s : string) : uint * string :=
  match s with
  | EmptyString => (Nil, EmptyString)
  | String c r =>
      match decimal_digit c with
      | Some d => let (u, rest) := take_digits r in (d u, rest)
      | None => (Nil, s)
      end
  end.

(** The longest prefix of hexadecimal digits read into [acc]; [None]
    when there is no digit at all. *)
Fixpoint take_hex (seen : bool) (acc : Z) (s : string) : option Z * string :=
  match s with
  | EmptyString => (if seen then Some acc else None, EmptyString)
  | String c r =>
      match hex_digit c with
      | Some d => take_hex true (16 * acc + d) r
      | None => (if seen then Some acc else None, s)
      end
  end.

(** White space and line terminators among the one-byte code units. *)
Definition is_space (c : ascii) : bool :=
  let n := nat_of_ascii c in
  ((9 <=? n) && (n <=? 13) || (n =? 32) || (n =? 160))%nat.

Fixpoint skip_space (s : string) : string :=
  match s with
  | String c r => if is_space c then skip_space r else s
  | EmptyString => EmptyString
  end.

Definition is_hex_prefix (s : string) : option string :=
  match s with
  | String "0" (String "x" r) | String "0" (String "X" r) => Some r
  | _ => None
  end.

(** An optional sign in front of a numeric literal. *)
Definition take_sign (s : string) : bool * string :=
  match s with
  | String c r =>
      if Ascii.eqb c "-" then (true, r)
      else if Ascii.eqb c "+" then (false, r)
      else (false, s)
  | EmptyString => (false, s)
  end.

(** [parseInt(s)] with no radix: leading white space, a sign, an optional
    [0x], then the longest run of digits; [None] is NaN.  The result is
    the integer the digits denote, which is the number the runtime
    returns when it is a safe integer; beyond 2^53 the runtime rounds. *)
Definition parseInt (s : string) : option Z :=
  let (neg, s) := take_sign (skip_space s) in
  let magnitude :=
    match is_hex_prefix s with
    | Some r => fst (take_hex false 0 r)
    | None =>
        match take_digits s with
        | (Nil, _) => None
        | (u, _) => Some (Z.of_uint u)
        end
    end in
  (λ m, if neg : bool then - m else m) <$> magnitude.

Fixpoint trim_end (s : string) : string :=
  match s with
  | EmptyString => EmptyString
  | String c r =>
      match trim_end r with
      | EmptyString => if is_space c then EmptyString else String c EmptyString
      | r' => String c r'
      end
  end.

Definition all_digits (s : string) : option Z :=
  match take_digits s with
  | (Nil, _) => None
  | (u, EmptyString) => Some (Z.of_uint u)
  | _ => None
  end.

Definition all_hex (s : string) : option Z :=
  match take_hex false 0 s with
  | (Some z, EmptyString) => Some z
  | _ => None
  end.

(** [Number(s)] on a string: the string with its white space trimmed is
    empty (zero), an infinity, a hexadecimal literal or a signed run of
    decimal digits; anything else is NaN.  A literal with a fraction, an
    exponent or a binary or octal prefix denotes a number the model does
    not have and reads as NaN here. *)
Definition StringToNumber (s : string) : JsNum :=
  let s := trim_end (skip_space s) in
  if String.eqb s "" then Int 0
  else
    match is_hex_prefix s with
    | Some r => match all_hex r with Some z => Int z | None => NaN end
    | None =>
        let (neg, r) := take_sign s in
        if String.eqb r "Infinity" then (if neg : bool then NegInf else PosInf)
        else
          match all_digits r with
          | Some m =>
              if neg then (if Z.eqb m 0 then NegZero else Int (- m)) else Int m
          | None => NaN
          end
    end.

Definition Boolean_toString (b : bool) : string :=
  if b then "true" else "false".

(** The own property [name] of a plain object; of two bindings of one
    name the later one counts. *)
Fixpoint own_property (name : string) (properties : list (string * JsValue))
  : option JsValue :=
  match properties with
  | [] => None
  | (k, v) :: rest =>
      match own_property name rest with
      | Some v' => Some v'
      | None => if String.eqb k name then Some v else None
      end
  end.

Definition callable (v : JsValue) : bool :=
  match v with JFunction _ => true | _ => false end.

(** The abstract operation [ToString], which [parseInt] applies to its
    argument.  An array prints its elements joined by commas, with
    [undefined] and [null] as the empty string.  A plain object prints as
    ["[object Object]"] through [Object.prototype.toString], unless it
    has a [toString] of its own: one that is no function is skipped, and
    with it the inherited [valueOf], which returns the object, so that
    the conversion ends in a [TypeError].  What a function of the object's
    own returns is not in the model: for such an object (see [printable]
    below) the [TypeError] given here stands for a result that is not
    known. *)
Fixpoint ToString (v : JsValue) : Completion string :=
  match v with
  | JUndefined => Normal "undefined"
  | JNull => Normal "null"
  | JBool b => Normal (Boolean_toString b)
  | JNumber n => Normal (Number_toString n)
  | JString s => Normal s
  | JSymbol _ => Throw TypeError
  | JBigInt z => Normal (Z_toString z)
  | JFunction source => Normal source
  | JObject properties =>
      match own_property "toString" properties with
      | None => Normal "[object Object]"
      | Some _ => Throw TypeError
      end
  | JArray elements =>
      (fix join (l : list JsValue) : Completion string :=
         match l with
         | [] => Normal ""
         | x :: r =>
             let element :=
               match x with
               | JUndefined | JNull => Normal ""
               | _ => ToString x
               end in
             match element, r with
             | Throw e, _ => Throw e
             | Normal sx, [] => Normal sx
             | Normal sx, _ :: _ =>
                 match join r with
                 | Normal sr => Normal (sx +:+ "," +:+ sr)
                 | Throw e => Throw e
                 end
             end
         end) elements
  end.

(** The method call [v.toString()]: there is no such property on
    [undefined] and [null], and a symbol prints its description. *)
Definition toString (v : JsValue) : Completion string :=
  match v with
  | JUndefined | JNull => Throw TypeError
  | JSymbol description => Normal ("Symbol(" +:+ description +:+ ")")
  | _ => ToString v
  end.

(** ** [String.prototype.replace] with a pattern that matches a literal *)

Fixpoint strip_prefix (p s : string) : option string :=
  match p, s with
  | EmptyString, _ => Some s
  | String a p', String b s' => if Ascii.eqb a b then strip_prefix p' s' else None
  | String _ _, EmptyString => None
  end.

(** The first place where [pat] occurs in [s]: what precedes the match
    and what follows it. *)
Fixpoint find_match (pat s : string) : option (string * string) :=
  match strip_prefix pat s with
  | Some rest => Some (EmptyString, rest)
  | None =>
      match s with
      | EmptyString => None
      | String c r =>
          match find_match pat r with
          | Some (before, after) => Some (String c before, after)
          | None => None
          end
      end
  end.

(** [GetSubstitution] for a pattern without capture groups: in the
    replacement text [$$] is a dollar sign, [$&] the matched text,
    [$`] what precedes the match, [$'] what follows it, and any other
    dollar sign stands for itself. *)
Fixpoint GetSubstitution (matched before after replacement : string) : string :=
  match replacement with
  | EmptyString => EmptyString
  | String c r =>
      if Ascii.eqb c "$" then
        match r with
        | EmptyString => String c EmptyString
        | String d r' =>
            if Ascii.eqb d "$" then String "$" (GetSubstitution matched before after r')
            else if Ascii.eqb d "&" then matched +:+ GetSubstitution matched before after r'
            else if Ascii.eqb d "`" then before +:+ GetSubstitution matched before after r'
            else if Ascii.eqb d "'" then after +:+ GetSubstitution matched before after r'
            else String c (GetSubstitution matched before after r)
        end
      else String c (GetSubstitution matched before after r)
  end.

Definition replace (template pattern replacement : string) : string :=
  match find_match pattern template with
  | Some (before, after) =>
      before +:+ GetSubstitution pattern before after replacement +:+ after
  | None => template
  end.

(** ** The window and its [localStorage] *)

(** The store is a map from strings to strings with a capacity: a write
    that would take the stored keys and values beyond [quota] code units
    raises [QuotaExceededError] and leaves the store as it was. *)
Record Storage : Type := {
  items : gmap string string;
  quota : nat
}.

(** [window.localStorage] is [undefined] where the environment does not
    support it. *)
Record Window : Type := {
  localStorage : option Storage
}.

Definition usage (m : gmap string string) : nat :=
  map_fold (λ k v n, String.length k + String.length v + n)%nat 0%nat m.

(** A computation reads and updates the window and completes normally or
    abruptly; what it wrote before a throw stays written. *)
Definition M (A : Type) : Type := Window → Completion A * Window.

Definition ret {A} (a : A) : M A := λ w, (Normal a, w).

Definition bind {A B} (k : A → M B) (m : M A) : M B := λ w,
  match m w with
  | (Normal a, w') => k a w'
  | (Throw e, w') => (Throw e, w')
  end.

#[global] Instance M_ret : MRet M := @ret.
#[global] Instance M_bind : MBind M := @bind.

(** [try { body } catch (error) { handler }] *)
Definition try_catch {A} (body : M A) (handler : JsError → M A) : M A := λ w,
  match body w with
  | (Normal a, w') => (Normal a, w')
  | (Throw e, w') => handler e w'
  end.

Definition lift {A} (c : Completion A) : M A := λ w, (c, w).

(** A member access on [window.localStorage] throws a [TypeError] when
    the property is [undefined]. *)
Definition Storage_getItem (key : string) : M (option string) := λ w,
  match localStorage w with
  | None => (Throw TypeError, w)
  | Some st => (Normal (items st !! key), w)
  end.

Definition Storage_setItem (key value : string) : M unit := λ w,
  match localStorage w with
  | None => (Throw TypeError, w)
  | Some st =>
      let m := <[key := value]> (items st) in
      if (usage m <=? quota st)%nat
      then (Normal (), {| localStorage := Some {| items := m; quota := quota st |} |})
      else (Throw QuotaExceededError, w)
  end.

Definition Storage_removeItem (key : string) : M unit := λ w,
  match localStorage w with
  | None => (Throw TypeError, w)
  | Some st =>
      (Normal (),
       {| localStorage := Some {| items := delete key (items st); quota := quota st |} |})
  end.

(** The JSON library the module is applied to.  [stringify] may return
    a value that is no string, and both functions may throw. *)
Record JsonLib : Type := {
  stringify : JsValue → Completion JsValue;
  parse : string → Completion JsValue
}.

(** ** The module *)

Record Cids : Type := {
  cid_data : string;
  cid_type : string;
  cid_expire : string
}.

(** The result object of [getItem]. *)
Record Result : Type := {
  cids : Cids;
  data : JsValue;
  error : option string;
  result : bool;
  expires : Z
}.

Definition dataCid : string := "cachier:data:{cid}".
Definition typeCid : string := "cachier:type:{cid}".
Definition expireCid : string := "cachier:expire:{cid}".
(** The text that [/\{cid\}/] matches. *)
Definition cidRegEx : string := "{cid}".
Definition defaultTime : Z := 60 * 60 * 1000.

Definition _prepareCids (cid : string) : Cids :=
  {| cid_data := replace dataCid cidRegEx cid;
     cid_type := replace typeCid cidRegEx cid;
     cid_expire := replace expireCid cidRegEx cid |}.

(** [typeof window.localStorage !== "undefined"], evaluated when the
    module is loaded in window [w]. *)
Definition lsExists (w : Window) : bool :=
  match localStorage w with Some _ => true | None => false end.

(** A stored item as the value of [null] or of a string. *)
Definition item_text (d : option string) : string :=
  match d with Some s => s | None => "null" end.

(** [Number(data)] on a stored item: [Number(null)] is zero. *)
Definition Number_item (d : option string) : JsNum :=
  match d with Some s => StringToNumber s | None => Int 0 end.

Definition item_value (d : option string) : JsValue :=
  match d with Some s => JString s | None => JNull end.

Section Cachier.

Variable Json : JsonLib.

Definition serialize : JsValue → Completion JsValue := stringify Json.
Definition unserialize : string → Completion JsValue := parse Json.

Definition _exists (cacheId : string) : M bool := λ w,
  let cid := _prepareCids cacheId in
  let body : M bool :=
    if lsExists w then
      val ← Storage_getItem (cid_data cid);
      mret (match val with Some _ => true | None => false end)
    else mret false in
  body w.

(** The public [exists], under a name that is no keyword here. *)
Definition exists_ (cacheId : string) : M bool := _exists cacheId.

Definition removeItem (cacheId : string) : M bool :=
  try_catch
    (let cid := _prepareCids cacheId in
     Storage_removeItem (cid_data cid) ;;
     Storage_removeItem (cid_type cid) ;;
     Storage_removeItem (cid_expire cid) ;;
     mret true)
    (λ _, mret false).

(** [tag === s], where an absent item is [null]. *)
Definition is_text (tag : option string) (s : string) : bool :=
  match tag with Some t => String.eqb t s | None => false end.

(** The assignments to the fields of [myData]. *)
Definition set_data (v : JsValue) (ok : bool) (myData : Result) : Result :=
  {| cids := cids myData; data := v; error := error myData;
     result := ok; expires := expires myData |}.

Definition set_error (msg : string) (myData : Result) : Result :=
  {| cids := cids myData; data := data myData; error := Some msg;
     result := result myData; expires := expires myData |}.

Definition set_expires (left : Z) (myData : Result) : Result :=
  {| cids := cids myData; data := data myData; error := error myData;
     result := result myData; expires := left |}.

(** The [switch (dataType)] of [getItem], on a live entry. *)
Definition decode (myData : Result) (dataType data_ : option string) : M Result :=
  if is_text dataType "object" then
    v ← lift (unserialize (item_text data_));
    mret (set_data v true myData)
  else if is_text dataType "number" then
    mret (set_data (JNumber (Number_item data_)) true myData)
  else if is_text dataType "boolean" then
    mret (set_data (JBool (is_text data_ "true")) true myData)
  else if is_text dataType "string" then
    mret (set_data (item_value data_) true myData)
  else if is_text dataType "function" then
    mret (set_error "Function was saved, unable to retrieve the value"
            (set_data (JString "") false myData))
  else
    mret (set_error "Unknown data type was saved"
            (set_data (JString "") false myData)).

Definition getItem (cacheId : string) (now : Z) : M Result := λ w,
  let cid := _prepareCids cacheId in
  let myData := {| cids := cid; data := JString ""; error := None;
                   result := false; expires := -1 |} in
  let evict : M Result :=
    removeItem cacheId ;;
    mret (set_error "Expired in cache" myData) in
  let body : M Result :=
    if lsExists w then
      found ← _exists cacheId;
      if found : bool then
        stored ← Storage_getItem (cid_expire cid);
        match parseInt (item_text stored) with
        | Some expireDate =>
            if now <? expireDate then
              dataType ← Storage_getItem (cid_type cid);
              data_ ← Storage_getItem (cid_data cid);
              decode (set_expires (expireDate - now) myData) dataType data_
            else evict
        | None => evict
        end
      else mret (set_error "Cache key undefined" myData)
    else mret (set_error "The localStorage object is not supported" myData) in
  body w.

(** The [switch (dataType)] of [setItem] below its [function] case:
    an object is serialized, a string is kept, and anything else is
    asked for its [toString()]. *)
Definition encode (dataType : string) (data_ : JsValue) : Completion JsValue :=
  if String.eqb dataType "object" then serialize data_
  else if String.eqb dataType "string" then Normal data_
  else match toString data_ with
       | Normal s => Normal (JString s)
       | Throw e => Throw e
       end.

(** [(parseInt(expireTime) + now).toString()], from the text that
    [parseInt] reads.  The sum is the one of the runtime when the two
    terms and the sum are safe integers (see [exact_ttl] below). *)
Definition expiry (printed : string) (now : Z) : string :=
  match parseInt printed with
  | Some ttl => Z_toString (ttl + now)
  | None => "NaN"
  end.

Definition setItem (cacheId data_ expire : JsValue) (now : Z) : M bool :=
  let expireTime := if truthy expire then expire else JNumber (Int defaultTime) in
  let dataType := typeof data_ in
  match cacheId with
  | JString key =>
      if String.eqb dataType "function" then mret false
      else
        payload ← lift (encode dataType data_);
        match payload with
        | JString text =>
            let cid := _prepareCids key in
            printed ← lift (ToString expireTime);
            let expireTime := expiry printed now in
            try_catch
              (Storage_setItem (cid_data cid) text ;;
               Storage_setItem (cid_type cid) dataType ;;
               Storage_setItem (cid_expire cid) expireTime ;;
               mret true)
              (λ _, mret false)
        | _ => mret false
        end
  | _ => mret false
  end.

End Cachier.

(** ** A JSON library over the tree values

    [JSON.stringify] and [JSON.parse] of the runtime, on the values of the
    model: the instance the module is applied to in the examples below.
    A number literal with a fraction or an exponent denotes a number the
    model does not have, and [parse] reports it as a syntax error. *)
Module JSON.

Definition dquote : ascii := ascii_of_nat 34.

Definition hex_char (n : nat) : ascii :=
  match n with
  | 10 => "a" | 11 => "b" | 12 => "c" | 13 => "d" | 14 => "e" | 15 => "f"
  | _ => ascii_of_nat (48 + n)
  end%nat%char.

(** [QuoteJSONString] without its surrounding quotes. *)
Fixpoint escape (s : string) : string :=
  match s with
  | EmptyString => EmptyString
  | String c r =>
      let n := nat_of_ascii c in
      let two (e : ascii) := String "\" (String e (escape r)) in
      if Ascii.eqb c dquote then two dquote
      else if Ascii.eqb c "\" then two "\"%char
      else if (n =? 8)%nat then two "b"%char
      else if (n =? 9)%nat then two "t"%char
      else if (n =? 10)%nat then two "n"%char
      else if (n =? 12)%nat then two "f"%char
      else if (n =? 13)%nat then two "r"%char
      else if (n <? 32)%nat then
        "\u00" +:+ String (hex_char (n / 16)) (String (hex_char (n mod 16)) (escape r))
      else String c (escape r)
  end.

Definition quote (s : string) : string :=
  String dquote (escape s +:+ String dquote EmptyString).

Definition join (parts : list string) : string :=
  match parts with
  | [] => EmptyString
  | p :: ps => fold_left (λ acc q, acc +:+ "," +:+ q) ps p
  end.

Definition sequence {A} (l : list (Completion A)) : Completion (list A) :=
  fold_right
    (λ c acc,
       match c, acc with
       | Throw e, _ => Throw e
       | _, Throw e => Throw e
       | Normal a, Normal r => Normal (a :: r)
       end)
    (Normal []) l.

(** [SerializeJSONProperty]: [None] is the result [undefined]. *)
Fixpoint serialize_value (v : JsValue) : Completion (option string) :=
  match v with
  | JUndefined | JFunction _ | JSymbol _ => Normal None
  | JNull => Normal (Some "null")
  | JBool b => Normal (Some (Boolean_toString b))
  | JNumber (Int z) => Normal (Some (Z_toString z))
  | JNumber NegZero => Normal (Some "0")
  | JNumber _ => Normal (Some "null")
  | JString s => Normal (Some (quote s))
  | JBigInt _ => Throw TypeError
  | JArray elements =>
      match sequence (map serialize_value elements) with
      | Throw e => Throw e
      | Normal parts =>
          Normal (Some ("[" +:+ join (map (default "null") parts) +:+ "]"))
      end
  | JObject properties =>
      let member (p : string * JsValue) : Completion (option string) :=
        match serialize_value (snd p) with
        | Throw e => Throw e
        | Normal None => Normal None
        | Normal (Some text) => Normal (Some (quote (fst p) +:+ ":" +:+ text))
        end in
      match sequence (map member properties) with
      | Throw e => Throw e
      | Normal parts => Normal (Some ("{" +:+ join (omap id parts) +:+ "}"))
      end
  end.

Definition stringify (v : JsValue) : Completion JsValue :=
  match serialize_value v with
  | Throw e => Throw e
  | Normal None => Normal JUndefined
  | Normal (Some text) => Normal (JString text)
  end.

Definition is_ws (c : ascii) : bool :=
  let n := nat_of_ascii c in
  ((n =? 32) || (n =? 9) || (n =? 10) || (n =? 13))%nat.

Fixpoint skip_ws (s : string) : string :=
  match s with
  | String c r => if is_ws c then skip_ws r else s
  | EmptyString => EmptyString
  end.

(** The characters of a string literal after its opening quote. *)
Fixpoint parse_chars (s : string) : option (string * string) :=
  match s with
  | EmptyString => None
  | String c r =>
      if Ascii.eqb c dquote then Some (EmptyString, r)
      else if (nat_of_ascii c <? 32)%nat then None
      else if Ascii.eqb c "\" then
        match r with
        | EmptyString => None
        | String e r' =>
            let plain (x : ascii) :=
              match parse_chars r' with
              | Some (t, rest) => Some (String x t, rest)
              | None => None
              end in
            if Ascii.eqb e dquote then plain dquote
            else if Ascii.eqb e "\" then plain "\"%char
            else if Ascii.eqb e "/" then plain "/"%char
            else if Ascii.eqb e "b" then plain (ascii_of_nat 8)
            else if Ascii.eqb e "f" then plain (ascii_of_nat 12)
            else if Ascii.eqb e "n" then plain (ascii_of_nat 10)
            else if Ascii.eqb e "r" then plain (ascii_of_nat 13)
            else if Ascii.eqb e "t" then plain (ascii_of_nat 9)
            else if Ascii.eqb e "u" then
              match r' with
              | String "0" (String "0" (String h (String l r''))) =>
                  match hex_digit h, hex_digit l, parse_chars r'' with
                  | Some a, Some b, Some (t, rest) =>
                      Some (String (ascii_of_nat (Z.to_nat (16 * a + b))) t, rest)
                  | _, _, _ => None
                  end
              | _ => None
              end
            else None
        end
      else
        match parse_chars r with
        | Some (t, rest) => Some (String c t, rest)
        | None => None
        end
  end.

(** A number literal: an optional minus sign and an integer without
    leading zeros.  A literal with a fraction or an exponent denotes a
    number the model does not have, and this parser refuses it. *)
Definition parse_number (s : string) : option (JsValue * string) :=
  let (neg, s) :=
    match s with
    | String "-" r => (true, r)
    | _ => (false, s)
    end in
  match take_digits s with
  | (Nil, _) => None
  | (D0 (D0 _ | D1 _ | D2 _ | D3 _ | D4 _ | D5 _ | D6 _ | D7 _ | D8 _ | D9 _), _) => None
  | (u, rest) =>
      match rest with
      | String "." _ | String "e" _ | String "E" _ => None
      | _ =>
          let m := Z.of_uint u in
          Some (JNumber (if neg : bool then (if Z.eqb m 0 then NegZero else Int (- m))
                         else Int m), rest)
      end
  end.

(** An integer index: own properties with such keys come first in the
    order of an object's properties, by ascending index. *)
Definition array_index (k : string) : option Z :=
  match all_digits k with
  | Some i =>
      if String.eqb (Z_toString i) k && (i <? 2 ^ 32 - 1) then Some i else None
  | None => None
  end.

Fixpoint place (k : string) (v : JsValue) (props : list (string * JsValue))
  : list (string * JsValue) :=
  match props with
  | [] => [(k, v)]
  | (k', v') :: rest =>
      match array_index k, array_index k' with
      | Some i, Some j => if i <? j then (k, v) :: props else (k', v') :: place k v rest
      | Some _, None => (k, v) :: props
      | None, _ => (k', v') :: place k v rest
      end
  end.

Fixpoint overwrite (k : string) (v : JsValue) (props : list (string * JsValue))
  : option (list (string * JsValue)) :=
  match props with
  | [] => None
  | (k', v') :: rest =>
      if String.eqb k k' then Some ((k, v) :: rest)
      else cons (k', v') <$> overwrite k v rest
  end.

(** [CreateDataProperty]: a new value for a key the object has, a new
    property otherwise. *)
Definition define_property (k : string) (v : JsValue) (props : list (string * JsValue))
  : list (string * JsValue) :=
  match overwrite k v props with
  | Some props' => props'
  | None => place k v props
  end.

Fixpoint parse_value (fuel : nat) (s : string) {struct fuel} : option (JsValue * string) :=
  match fuel with
  | O => None
  | S fuel' =>
      let elements :=
        fix elements (n : nat) (acc : list JsValue) (s : string) : option (JsValue * string) :=
          match n with
          | O => None
          | S n' =>
              match parse_value fuel' s with
              | Some (v, r) =>
                  match skip_ws r with
                  | String "," r' => elements n' (v :: acc) r'
                  | String "]" r' => Some (JArray (rev (v :: acc)), r')
                  | _ => None
                  end
              | None => None
              end
          end in
      let members :=
        fix members (n : nat) (acc : list (string * JsValue)) (s : string)
          : option (JsValue * string) :=
          match n with
          | O => None
          | S n' =>
              match skip_ws s with
              | String c r =>
                  if Ascii.eqb c dquote then
                    match parse_chars r with
                    | Some (k, r1) =>
                        match skip_ws r1 with
                        | String ":" r2 =>
                            match parse_value fuel' r2 with
                            | Some (v, r3) =>
                                let acc' := define_property k v acc in
                                match skip_ws r3 with
                                | String "," r4 => members n' acc' r4
                                | String "}" r4 => Some (JObject acc', r4)
                                | _ => None
                                end
                            | None => None
                            end
                        | _ => None
                        end
                    | None => None
                    end
                  else None
              | EmptyString => None
              end
          end in
      match skip_ws s with
      | EmptyString => None
      | String c r as s' =>
          if Ascii.eqb c "n" then (λ r', (JNull, r')) <$> strip_prefix "ull" r
          else if Ascii.eqb c "t" then (λ r', (JBool true, r')) <$> strip_prefix "rue" r
          else if Ascii.eqb c "f" then (λ r', (JBool false, r')) <$> strip_prefix "alse" r
          else if Ascii.eqb c dquote then
            (λ p : string * string, (JString (fst p), snd p)) <$> parse_chars r
          else if Ascii.eqb c "[" then
            match skip_ws r with
            | String "]" r' => Some (JArray [], r')
            | r' => elements (String.length r') [] r'
            end
          else if Ascii.eqb c "{" then
            match skip_ws r with
            | String "}" r' => Some (JObject [], r')
            | r' => members (String.length r') [] r'
            end
          else parse_number s'
      end
  end.

Definition parse (text : string) : Completion JsValue :=
  match parse_value (S (String.length text)) text with
  | Some (v, rest) =>
      match skip_ws rest with
      | EmptyString => Normal v
      | _ => Throw SyntaxError
      end
  | None => Throw SyntaxError
  end.

Definition lib : JsonLib := Build_JsonLib stringify parse.

End JSON.

(** ** Version 1.2

    The earlier release of the module.  Its [prepareCids], [setItem] and
    [removeItem] are the ones above.  Its [getItem] tests neither
    [lsExists] nor [_exists]: it reads the expiry first, and its result
    object has three fields. *)
Module V1_2.

Record Result : Type := {
  result : bool;
  data : JsValue;
  error : option string
}.

Section Cachier.

Variable Json : JsonLib.

Definition decode (dataType data_ : option string) : M Result :=
  let ok v := {| result := true; data := v; error := None |} in
  let failed msg := {| result := false; data := JString ""; error := Some msg |} in
  if is_text dataType "object" then
    v ← lift (unserialize Json (item_text data_));
    mret (ok v)
  else if is_text dataType "number" then
    mret (ok (JNumber (Number_item data_)))
  else if is_text dataType "boolean" then
    mret (ok (JBool (is_text data_ "true")))
  else if is_text dataType "string" then
    mret (ok (item_value data_))
  else if is_text dataType "function" then
    mret (failed "Function was saved, unable to retrieve the value")
  else
    mret (failed "Unknown data type was saved").

Definition getItem (cacheId : string) (now : Z) : M Result :=
  let cid := _prepareCids cacheId in
  let evict : M Result :=
    removeItem cacheId ;;
    mret {| result := false; data := JString ""; error := Some "Expired" |} in
  stored ← Storage_getItem (cid_expire cid);
  match parseInt (item_text stored) with
  | Some expireDate =>
      if now <? expireDate then
        dataType ← Storage_getItem (cid_type cid);
        data_ ← Storage_getItem (cid_data cid);
        decode dataType data_
      else evict
  | None => evict
  end.

End Cachier.

End V1_2.

(** * The vocabulary of the statements *)

(** What is stored under a key of the underlying store, if anything. *)
Definition stored (w : Window) (key : string) : option string :=
  match localStorage w with
  | Some st => items st !! key
  | None => None
  end.

(** The window after a write that the store accepts. *)
Definition written (key value : string) (w : Window) : Window :=
  match localStorage w with
  | Some st =>
      {| localStorage := Some {| items := <[key := value]> (items st); quota := quota st |} |}
  | None => w
  end.

(** The window after a deletion. *)
Definition removed (key : string) (w : Window) : Window :=
  match localStorage w with
  | Some st =>
      {| localStorage := Some {| items := delete key (items st); quota := quota st |} |}
  | None => w
  end.

(** The window of an environment without [localStorage]. *)
Definition unavailable : Window := {| localStorage := None |}.

(** A window whose store is empty and holds up to [q] code units. *)
Definition empty_store (q : nat) : Window :=
  {| localStorage := Some {| items := ∅; quota := q |} |}.

(** An entry as [setItem] lays it out, written into a window. *)
Definition with_entry (k text tag exp : string) (w : Window) : Window :=
  written (cid_expire (_prepareCids k)) exp
    (written (cid_type (_prepareCids k)) tag
       (written (cid_data (_prepareCids k)) text w)).

(** The JSON library reads back what it wrote for [v]. *)
Definition JSON_roundtrips (Json : JsonLib) (v : JsValue) : Prop :=
  ∀ text, stringify Json v = Normal (JString text) → parse Json text = Normal v.

(** The values [setItem] stores so that [getItem] finds them again: a
    string, a boolean, a number other than the negative zero, and an
    object that the JSON library reads back. *)
Definition reads_back (Json : JsonLib) (v : JsValue) : Prop :=
  typeof v = "string" ∨ typeof v = "boolean" ∨
  (typeof v = "number" ∧ v ≠ JNumber NegZero) ∨
  (typeof v = "object" ∧ JSON_roundtrips Json v).

(** The largest integer up to which every integer is a number of the
    runtime, added without rounding and printed in plain decimal. *)
Definition MAX_SAFE_INTEGER : Z := 2 ^ 53 - 1.

(** The integers the runtime computes with exactly. *)
Definition safe_integer (z : Z) : Prop :=
  - MAX_SAFE_INTEGER <= z <= MAX_SAFE_INTEGER.

(** A value that, if it is a finite number, is a safe integer: its
    string form is then the plain decimal one. *)
Definition safe_number (v : JsValue) : Prop :=
  ∀ z, v = JNumber (Int z) → safe_integer z.

(** The values whose string form the model determines: the finite
    numbers among them are safe integers, and no object among them has a
    function of its own as [toString], nor, where its own [toString] is
    no function, as [valueOf]. *)
Fixpoint printable (v : JsValue) : bool :=
  match v with
  | JNumber (Int z) => (- MAX_SAFE_INTEGER <=? z) && (z <=? MAX_SAFE_INTEGER)
  | JArray elements =>
      (fix all (l : list JsValue) : bool :=
         match l with
         | [] => true
         | x :: r => printable x && all r
         end) elements
  | JObject properties =>
      match own_property "toString" properties with
      | None => true
      | Some f =>
          negb (callable f) &&
          negb (match own_property "valueOf" properties with
                | Some g => callable g
                | None => false
                end)
      end
  | _ => true
  end.

(** The expiry stored for a key, where [parseInt] reads one, is a safe
    integer: [parseInt] then returns it without rounding. *)
Definition safe_expiry (k : string) (w : Window) : Prop :=
  ∀ expireDate,
    parseInt (item_text (stored w (cid_expire (_prepareCids k)))) = Some expireDate →
    safe_integer expireDate.

(** The store of the window takes a write: there is a store, and the
    strings it would hold after the write are within its capacity. *)
Definition accepted (key value : string) (w : Window) : bool :=
  match localStorage w with
  | Some st => (usage (<[key := value]> (items st)) <=? quota st)%nat
  | None => false
  end.

(** The tags on which the switch of [getItem] succeeds. *)
Definition known_tag (tag : option string) : Prop :=
  tag = Some "object" ∨ tag = Some "number" ∨ tag = Some "boolean" ∨
  tag = Some "string".

(** Windows and values of the examples: a string entry that expires at
    time 100, an array and its entry, an entry tagged [function], the
    entry of a symbol, and an [object] entry whose text is not JSON. *)
Definition example_entry : Window :=
  with_entry "a" "hello" "string" "100" (empty_store 100).



Definition function_entry : Window :=
  with_entry "k" "x" "function" "100" (empty_store 100).

Definition symbol_entry : Window :=
  with_entry "k" "Symbol(s)" "symbol" "3600000" (empty_store 100).

Definition corrupted_entry : Window :=
  with_entry "k" "{oops" "object" "100" (empty_store 100).

(** No dollar sign occurs in [s]: as a replacement text it is taken
    literally. *)
Fixpoint dollar_free (s : string) : bool :=
  match s with
  | EmptyString => true
  | String c r => negb (Ascii.eqb c "$") && dollar_free r
  end.

(** The three keys of the store that belong to a logical key. *)
Definition derived (k : string) : list string :=
  [cid_data (_prepareCids k); cid_type (_prepareCids k); cid_expire (_prepareCids k)].

(** The window after the three deletions of [removeItem]. *)
Definition without_entry (k : string) (w : Window) : Window :=
  removed (cid_expire (_prepareCids k))
    (removed (cid_type (_prepareCids k))
       (removed (cid_data (_prepareCids k)) w)).

(** The result object that reports a failure before any decoding. *)
Definition failure (k msg : string) : Result :=
  {| cids := _prepareCids k; data := JString ""; error := Some msg;
     result := false; expires := -1 |}.

(** The time to live that [setItem] works with: [expire || defaultTime]. *)
Definition effective_ttl (expire : JsValue) : JsValue :=
  if truthy expire then expire else JNumber (Int defaultTime).

(** The time to live is one whose string form the model determines, and
    the expiry made of it is exact: where [parseInt] reads a number from
    that string form, the number, the clock and their sum are safe
    integers. *)
Definition exact_ttl (expire : JsValue) (now : Z) : bool :=
  printable (effective_ttl expire) &&
  match ToString (effective_ttl expire) with
  | Normal printed =>
      match parseInt printed with
      | Some ttl =>
          (- MAX_SAFE_INTEGER <=? ttl) && (ttl <=? MAX_SAFE_INTEGER) &&
          (0 <=? now) && (now <=? MAX_SAFE_INTEGER) &&
          (- MAX_SAFE_INTEGER <=? ttl + now) && (ttl + now <=? MAX_SAFE_INTEGER)
      | None => true
      end
  | Throw _ => true
  end.

(** The result object of version 1.2 that corresponds to one of version
    1.3.1: the three fields they share, and the shorter expiry message. *)
Definition as_1_2 (r : Result) : V1_2.Result :=
  {| V1_2.result := result r;
     V1_2.data := data r;
     V1_2.error := if is_text (error r) "Expired in cache"
                   then Some "Expired" else error r |}.

Definition Completion_map {A B} (f : A → B) (c : Completion A) : Completion B :=
  match c with
  | Normal a => Normal (f a)
  | Throw e => Throw e
  end.

(** More windows of the examples: an entry with two foreign keys beside
    it, a store that holds only the data string of a key, and an entry
    whose expiry is not a number. *)
Definition shared_store : Window :=
  written "session" "abc" (written "cachier:data:b" "other" example_entry).

(** A time to live that is an object whose own [toString] is a string. *)
Definition text_toString_ttl : JsValue := JObject [("toString", JString "x")].

Definition roomy_entry : Window :=
  with_entry "a" "hello" "string" "100" (empty_store 1000).

Definition tight_entry : Window :=
  with_entry "k" "x" "string" "100" (empty_store 57).

Definition partial_entry : Window :=
  written "cachier:data:k" "x" (empty_store 100).

Definition nan_entry : Window :=
  with_entry "k" "x" "string" "NaN" (empty_store 100).

(** The result object of a successful [getItem]. *)
Definition success (k : string) (v : JsValue) (left : Z) : Result :=
  {| cids := _prepareCids k; data := v; error := None;
     result := true; expires := left |}.

(** The store takes the three writes of an entry, one after the other. *)
Definition fits (k text tag exp : string) (st : Storage) : Prop :=
  let m1 := <[cid_data (_prepareCids k) := text]> (items st) in
  let m2 := <[cid_type (_prepareCids k) := tag]> m1 in
  let m3 := <[cid_expire (_prepareCids k) := exp]> m2 in
  (usage m1 ≤ quota st ∧ usage m2 ≤ quota st ∧ usage m3 ≤ quota st)%nat.

(** Unfolds the monad and the operations of the store. *)
Ltac run :=
  unfold mbind, M_bind, bind, mret, M_ret, ret, lift, try_catch,
    Storage_getItem, Storage_setItem, Storage_removeItem in *.

(** * Properties *)

(** ** Printing and reading numbers *)

Lemma take_digits_printed (u : uint) :
  take_digits (NilEmpty.string_of_uint u) = (u, EmptyString).
Proof. induction u; simpl; rewrite ?IHu; reflexivity. Qed.

Lemma skip_space_printed (u : uint) :
  skip_space (NilEmpty.string_of_uint u) = NilEmpty.string_of_uint u.
Proof. destruct u; reflexivity. Qed.

Lemma trim_end_printed (u : uint) :
  trim_end (NilEmpty.string_of_uint u) = NilEmpty.string_of_uint u.
Proof.
  induction u; simpl; trivial; rewrite IHu;
    destruct (NilEmpty.string_of_uint u); reflexivity.
Qed.

Lemma is_hex_prefix_printed (u : uint) :
  is_hex_prefix (NilEmpty.string_of_uint u) = None.
Proof. destruct u as [|u|u|u|u|u|u|u|u|u|u]; try reflexivity; destruct u; reflexivity. Qed.

Lemma printed_not_Infinity (u : uint) :
  String.eqb (NilEmpty.string_of_uint u) "Infinity" = false.
Proof. destruct u; reflexivity. Qed.

Lemma all_digits_printed (u : uint) :
  u ≠ Nil → all_digits (NilEmpty.string_of_uint u) = Some (Z.of_uint u).
Proof.
  intros Hu. unfold all_digits. rewrite take_digits_printed.
  destruct u; congruence.
Qed.

Lemma to_int_cases (z : Z) :
  (∃ u, Z.to_int z = Pos u ∧ u ≠ Nil ∧ Z.of_uint u = z ∧ 0 <= z) ∨
  (∃ u, Z.to_int z = Neg u ∧ u ≠ Nil ∧ Z.of_uint u = - z ∧ z < 0).
Proof.
  pose proof (DecimalZ.of_to z) as E.
  destruct z as [|p|p]; simpl in *.
  - left. eexists. split; [reflexivity|]. repeat split; try easy.
  - left. eexists. split; [reflexivity|]. repeat split; try easy.
    apply DecimalPos.Unsigned.to_uint_nonnil.
  - right. eexists. split; [reflexivity|]. repeat split; try easy.
    + apply DecimalPos.Unsigned.to_uint_nonnil.
    + lia.
Qed.

Lemma take_sign_printed (u : uint) :
  take_sign (NilEmpty.string_of_uint u) = (false, NilEmpty.string_of_uint u).
Proof. destruct u; reflexivity. Qed.

Lemma printed_not_empty (u : uint) :
  u ≠ Nil → String.eqb (NilEmpty.string_of_uint u) "" = false.
Proof. destruct u; congruence || reflexivity. Qed.

(** [parseInt] reads a printed integer back. *)
Lemma parseInt_printed (z : Z) : parseInt (Z_toString z) = Some z.
Proof.
  unfold Z_toString, parseInt.
  destruct (to_int_cases z) as [(u & -> & Hu & Hz & _)|(u & -> & Hu & Hz & _)];
    simpl NilEmpty.string_of_int.
  - rewrite skip_space_printed, take_sign_printed, is_hex_prefix_printed,
      take_digits_printed.
    destruct u; try congruence; simpl; congruence.
  - simpl. rewrite is_hex_prefix_printed, take_digits_printed.
    destruct u; try congruence; simpl; f_equal; lia.
Qed.

(** [Number] reads a printed number back, except for the negative zero,
    which prints as ["0"]. *)
Lemma StringToNumber_printed (n : JsNum) :
  n ≠ NegZero → StringToNumber (Number_toString n) = n.
Proof.
  destruct n as [ | | | |z]; try reflexivity; try congruence. intros _.
  simpl. unfold Z_toString, StringToNumber.
  destruct (to_int_cases z) as [(u & -> & Hu & Hz & _)|(u & -> & Hu & Hz & Hneg)];
    simpl NilEmpty.string_of_int.
  - rewrite skip_space_printed, trim_end_printed, printed_not_empty,
      is_hex_prefix_printed, take_sign_printed, printed_not_Infinity,
      all_digits_printed by assumption.
    congruence.
  - change (skip_space (String "-" ?r)) with (String "-" r).
    assert (trim_end (String "-" (NilEmpty.string_of_uint u))
            = String "-" (NilEmpty.string_of_uint u)) as ->.
    { simpl. rewrite trim_end_printed. destruct u; congruence || reflexivity. }
    simpl. rewrite printed_not_Infinity, all_digits_printed by assumption.
    destruct (Z.eqb_spec (Z.of_uint u) 0); [lia|]. f_equal. lia.
Qed.

Lemma negative_zero_prints_as_zero :
  StringToNumber (Number_toString NegZero) = Int 0.
Proof. reflexivity. Qed.

(** ** The derived keys *)

Lemma cids_distinct (k : string) :
  cid_data (_prepareCids k) ≠ cid_type (_prepareCids k) ∧
  cid_data (_prepareCids k) ≠ cid_expire (_prepareCids k) ∧
  cid_type (_prepareCids k) ≠ cid_expire (_prepareCids k).
Proof.
  unfold _prepareCids, replace. simpl.
  repeat split; intros H; discriminate H.
Qed.

(** ** Running the operations *)

Lemma stored_written_eq key value w :
  lsExists w = true → stored (written key value w) key = Some value.
Proof.
  destruct w as [[st|]]; [intros _|discriminate].
  unfold stored, written; simpl. apply lookup_insert_eq.
Qed.

Lemma stored_written_ne key key' value w :
  key ≠ key' → stored (written key value w) key' = stored w key'.
Proof.
  intros Hne. destruct w as [[st|]]; [|reflexivity].
  unfold stored, written; simpl. by apply lookup_insert_ne.
Qed.

Lemma stored_removed_eq key w : stored (removed key w) key = None.
Proof.
  destruct w as [[st|]]; [|reflexivity].
  unfold stored, removed; simpl. apply lookup_delete_eq.
Qed.

Lemma stored_removed_ne key key' w :
  key ≠ key' → stored (removed key w) key' = stored w key'.
Proof.
  intros Hne. destruct w as [[st|]]; [|reflexivity].
  unfold stored, removed; simpl. by apply lookup_delete_ne.
Qed.

Lemma lsExists_written key value w : lsExists (written key value w) = lsExists w.
Proof. by destruct w as [[st|]]. Qed.

Lemma lsExists_removed key w : lsExists (removed key w) = lsExists w.
Proof. by destruct w as [[st|]]. Qed.

(** The three writes of [setItem] under its [try]: they all happen, or
    the first one the store refuses ends them. *)
Lemma three_writes a x b y c z (w : Window) :
  let attempt : M bool :=
    try_catch
      (Storage_setItem a x ;; Storage_setItem b y ;; Storage_setItem c z ;; mret true)
      (λ _, mret false) in
  attempt w = (Normal true, written c z (written b y (written a x w))) ∧ lsExists w = true ∨
  attempt w = (Normal false, w) ∨
  attempt w = (Normal false, written a x w) ∧ lsExists w = true ∨
  attempt w = (Normal false, written b y (written a x w)) ∧ lsExists w = true.
Proof.
  run. destruct w as [[st|]]; simpl; [|auto].
  destruct (usage (<[a:=x]> (items st)) <=? quota st)%nat; simpl; [|auto].
  destruct (usage (<[b:=y]> (<[a:=x]> (items st))) <=? quota st)%nat; simpl; [|auto].
  destruct (usage (<[c:=z]> (<[b:=y]> (<[a:=x]> (items st)))) <=? quota st)%nat;
    simpl; auto 10.
Qed.

(** The same three writes, by the write that the store refuses first. *)
Lemma three_writes_exact a x b y c z (w : Window) :
  try_catch
    (Storage_setItem a x ;; Storage_setItem b y ;; Storage_setItem c z ;; mret true)
    (λ _, mret false) w
  = if accepted a x w then
      if accepted b y (written a x w) then
        if accepted c z (written b y (written a x w))
        then (Normal true, written c z (written b y (written a x w)))
        else (Normal false, written b y (written a x w))
      else (Normal false, written a x w)
    else (Normal false, w).
Proof.
  run. unfold accepted, written. destruct w as [[st|]]; simpl; [|reflexivity].
  destruct (usage (<[a:=x]> (items st)) <=? quota st)%nat; simpl; [|reflexivity].
  destruct (usage (<[b:=y]> (<[a:=x]> (items st))) <=? quota st)%nat; simpl;
    [|reflexivity].
  by destruct (usage (<[c:=z]> (<[b:=y]> (<[a:=x]> (items st)))) <=? quota st)%nat.
Qed.

(** The three deletions of [removeItem]. *)
Lemma removeItem_available k (w : Window) :
  lsExists w = true →
  removeItem k w =
    (Normal true,
     removed (cid_expire (_prepareCids k))
       (removed (cid_type (_prepareCids k))
          (removed (cid_data (_prepareCids k)) w))).
Proof. destruct w as [[st|]]; [reflexivity|discriminate]. Qed.

Lemma removeItem_unavailable k :
  removeItem k unavailable = (Normal false, unavailable).
Proof. reflexivity. Qed.

Lemma exists_available k (w : Window) :
  lsExists w = true →
  _exists k w =
    (Normal (match stored w (cid_data (_prepareCids k)) with
             | Some _ => true
             | None => false
             end), w).
Proof. destruct w as [[st|]]; [reflexivity|discriminate]. Qed.

(** [getItem] on an available store, read off the stored strings. *)
Lemma getItem_available Json k now (w : Window) :
  lsExists w = true →
  getItem Json k now w =
    let cid := _prepareCids k in
    let with_error msg := {| cids := cid; data := JString ""; error := Some msg;
                             result := false; expires := -1 |} in
    let evicted :=
      (Normal (with_error "Expired in cache"),
       removed (cid_expire cid) (removed (cid_type cid) (removed (cid_data cid) w))) in
    match stored w (cid_data cid) with
    | None => (Normal (with_error "Cache key undefined"), w)
    | Some _ =>
        match parseInt (item_text (stored w (cid_expire cid))) with
        | Some expireDate =>
            if now <? expireDate then
              decode Json {| cids := cid; data := JString ""; error := None;
                             result := false; expires := expireDate - now |}
                     (stored w (cid_type cid)) (stored w (cid_data cid)) w
            else evicted
        | None => evicted
        end
    end.
Proof.
  destruct w as [[st|]]; [intros _|discriminate].
  unfold getItem, removeItem, _exists, stored, removed.
  generalize (_prepareCids k); intros cid.
  run. cbn.
  destruct (items st !! cid_data cid) eqn:E; cbn; [|reflexivity].
  destruct (parseInt _) as [expireDate|]; cbn; [|reflexivity].
  destruct (now <? expireDate); cbn; rewrite ?E; reflexivity.
Qed.

Lemma getItem_unavailable Json k now :
  getItem Json k now unavailable =
    (Normal {| cids := _prepareCids k; data := JString "";
               error := Some "The localStorage object is not supported";
               result := false; expires := -1 |}, unavailable).
Proof. reflexivity. Qed.

(** [setItem] with a string key, by the outcome of its conversions. *)
Lemma setItem_string_key Json key v expire now (w : Window) :
  setItem Json (JString key) v expire now w =
    if String.eqb (typeof v) "function" then (Normal false, w)
    else
      match encode Json (typeof v) v with
      | Throw e => (Throw e, w)
      | Normal (JString text) =>
          match ToString (if truthy expire then expire else JNumber (Int defaultTime)) with
          | Throw e => (Throw e, w)
          | Normal printed =>
              let cid := _prepareCids key in
              try_catch
                (Storage_setItem (cid_data cid) text ;;
                 Storage_setItem (cid_type cid) (typeof v) ;;
                 Storage_setItem (cid_expire cid) (expiry printed now) ;;
                 mret true)
                (λ _, mret false) w
          end
      | Normal _ => (Normal false, w)
      end.
Proof.
  unfold setItem.
  destruct (String.eqb (typeof v) "function"); [reflexivity|].
  unfold mbind at 1, M_bind at 1, bind at 1, lift at 1.
  destruct (encode Json (typeof v) v) as [payload|e]; [|reflexivity].
  destruct payload; reflexivity.
Qed.

Lemma setItem_other_key Json cacheId v expire now (w : Window) :
  typeof cacheId ≠ "string" → setItem Json cacheId v expire now w = (Normal false, w).
Proof. destruct cacheId; simpl; congruence || reflexivity. Qed.

(** A successful [setItem] has made its three writes. *)
Lemma setItem_true Json cacheId v expire now (w w' : Window) :
  setItem Json cacheId v expire now w = (Normal true, w') →
  ∃ key text printed,
    cacheId = JString key ∧
    String.eqb (typeof v) "function" = false ∧
    encode Json (typeof v) v = Normal (JString text) ∧
    ToString (if truthy expire then expire else JNumber (Int defaultTime)) = Normal printed ∧
    lsExists w = true ∧
    w' = written (cid_expire (_prepareCids key)) (expiry printed now)
           (written (cid_type (_prepareCids key)) (typeof v)
              (written (cid_data (_prepareCids key)) text w)).
Proof.
  intros H.
  destruct (decide (typeof cacheId = "string")) as [Hk|Hk];
    [|rewrite setItem_other_key in H by assumption; congruence].
  destruct cacheId; try discriminate Hk. rename s into key.
  rewrite setItem_string_key in H.
  destruct (String.eqb (typeof v) "function") eqn:Hf; [congruence|].
  destruct (encode Json (typeof v) v) as [payload|e] eqn:He; [|congruence].
  destruct payload; try congruence.
  destruct (ToString _) as [printed|e] eqn:Hp; [|congruence].
  cbv zeta in H.
  exists key, s, printed. repeat split; trivial.
  - destruct (three_writes (cid_data (_prepareCids key)) s
                (cid_type (_prepareCids key)) (typeof v)
                (cid_expire (_prepareCids key)) (expiry printed now) w)
      as [[_ E]|[E|[[E _]|[E _]]]]; trivial; cbv zeta in E; congruence.
  - destruct (three_writes (cid_data (_prepareCids key)) s
                (cid_type (_prepareCids key)) (typeof v)
                (cid_expire (_prepareCids key)) (expiry printed now) w)
      as [[E _]|[E|[[E _]|[E _]]]]; cbv zeta in E; congruence.
Qed.

(** What a window holds under the three keys after the three writes. *)
Lemma stored_after_writes k text tag exp (w : Window) :
  lsExists w = true →
  let cid := _prepareCids k in
  let w' := written (cid_expire cid) exp (written (cid_type cid) tag
              (written (cid_data cid) text w)) in
  stored w' (cid_data cid) = Some text ∧
  stored w' (cid_type cid) = Some tag ∧
  stored w' (cid_expire cid) = Some exp ∧
  lsExists w' = true.
Proof.
  intros Hw cid w'. subst w'.
  destruct (cids_distinct k) as (Hdt & Hde & Hte). fold cid in Hdt, Hde, Hte.
  repeat split.
  - rewrite !stored_written_ne by congruence. by apply stored_written_eq.
  - rewrite stored_written_ne by congruence.
    apply stored_written_eq. by rewrite lsExists_written.
  - apply stored_written_eq. by rewrite !lsExists_written.
  - by rewrite !lsExists_written.
Qed.

(** ** The claims about the operations *)

(** C7.  [setItem] with a function as its value returns [false] and leaves
    the window, and with it every stored string, as it was: whatever the
    key, the time to live, the clock and the store. *)
Theorem setItem_function_rejected Json cacheId source expire now (w : Window) :
  setItem Json cacheId (JFunction source) expire now w = (Normal false, w).
Proof. destruct cacheId; reflexivity. Qed.

(** C10.  [setItem] with a string key and the value [undefined] does not
    return: the default branch of the switch calls [toString] on
    [undefined], and the [TypeError] leaves the function before its [try]. *)
Theorem setItem_undefined_throws Json key expire now (w : Window) :
  setItem Json (JString key) JUndefined expire now w = (Throw TypeError, w).
Proof. reflexivity. Qed.

(** C8.  In a window without [localStorage], [exists] returns [false] and
    [getItem] returns its result object with [result] false and the
    message that the store is not supported; both complete normally. *)
Theorem unavailable_store_degrades Json k now :
  exists_ k unavailable = (Normal false, unavailable) ∧
  getItem Json k now unavailable =
    (Normal {| cids := _prepareCids k; data := JString "";
               error := Some "The localStorage object is not supported";
               result := false; expires := -1 |},
     unavailable).
Proof. split; reflexivity. Qed.

(** C4.  With a store at hand and no entry under the key ([exists]
    answers [false]), [getItem] returns [result] false with the message
    that the key is undefined, and the window is unchanged. *)
Theorem getItem_missing_key Json k now (w : Window) :
  lsExists w = true →
  exists_ k w = (Normal false, w) →
  getItem Json k now w =
    (Normal {| cids := _prepareCids k; data := JString "";
               error := Some "Cache key undefined";
               result := false; expires := -1 |},
     w).
Proof.
  intros Hw Hk. unfold exists_ in Hk. rewrite exists_available in Hk by assumption.
  rewrite getItem_available by assumption. cbv zeta.
  destruct (stored w (cid_data (_prepareCids k))); [discriminate|reflexivity].
Qed.

Lemma getItem_missing_key_witness :
  lsExists (empty_store 100) = true ∧
  exists_ "a" (empty_store 100) = (Normal false, empty_store 100) ∧
  getItem JSON.lib "a" 5 (empty_store 100) =
    (Normal {| cids := _prepareCids "a"; data := JString "";
               error := Some "Cache key undefined";
               result := false; expires := -1 |},
     empty_store 100).
Proof.
  split; [reflexivity|]. split; [reflexivity|].
  apply getItem_missing_key; reflexivity.
Defined.

(** C3.  When the entry of a key exists and the clock has reached the
    stored expiry, [getItem] returns [result] false with the expiry
    message and deletes the three stored strings of the key, so that
    [exists] then answers [false]. *)
Theorem getItem_expired_evicts Json k now expireDate (w : Window) :
  exists_ k w = (Normal true, w) →
  parseInt (item_text (stored w (cid_expire (_prepareCids k)))) = Some expireDate →
  expireDate <= now →
  ∃ w',
    getItem Json k now w =
      (Normal {| cids := _prepareCids k; data := JString "";
                 error := Some "Expired in cache";
                 result := false; expires := -1 |},
       w') ∧
    stored w' (cid_data (_prepareCids k)) = None ∧
    stored w' (cid_type (_prepareCids k)) = None ∧
    stored w' (cid_expire (_prepareCids k)) = None ∧
    exists_ k w' = (Normal false, w').
Proof.
  intros Hk He Hle.
  assert (lsExists w = true) as Hw.
  { destruct w as [[st|]]; [reflexivity|discriminate]. }
  unfold exists_ in Hk. rewrite exists_available in Hk by assumption.
  destruct (cids_distinct k) as (Hdt & Hde & Hte).
  eexists. split; [|repeat split].
  - rewrite getItem_available by assumption. cbv zeta.
    destruct (stored w (cid_data (_prepareCids k))); [|discriminate].
    rewrite He. destruct (Z.ltb_spec now expireDate); [lia|reflexivity].
  - rewrite !stored_removed_ne by congruence. apply stored_removed_eq.
  - rewrite stored_removed_ne by congruence. apply stored_removed_eq.
  - apply stored_removed_eq.
  - unfold exists_. rewrite exists_available by (by rewrite !lsExists_removed).
    rewrite !stored_removed_ne by congruence. by rewrite stored_removed_eq.
Qed.

Lemma getItem_expired_evicts_witness :
  exists_ "a" example_entry = (Normal true, example_entry) ∧
  parseInt (item_text (stored example_entry (cid_expire (_prepareCids "a")))) = Some 100 ∧
  100 <= 100 ∧
  ∃ w',
    getItem JSON.lib "a" 100 example_entry =
      (Normal {| cids := _prepareCids "a"; data := JString "";
                 error := Some "Expired in cache";
                 result := false; expires := -1 |},
       w') ∧
    stored w' (cid_data (_prepareCids "a")) = None ∧
    stored w' (cid_type (_prepareCids "a")) = None ∧
    stored w' (cid_expire (_prepareCids "a")) = None ∧
    exists_ "a" w' = (Normal false, w').
Proof.
  split; [vm_compute; reflexivity|]. split; [vm_compute; reflexivity|].
  split; [lia|].
  apply (getItem_expired_evicts JSON.lib "a" 100 100 example_entry);
    [vm_compute; reflexivity | vm_compute; reflexivity | lia].
Defined.

(** *** Round trip *)

Lemma encode_decode Json v text myData (w : Window) :
  reads_back Json v →
  encode Json (typeof v) v = Normal (JString text) →
  decode Json myData (Some (typeof v)) (Some text) w =
    (Normal {| cids := cids myData; data := v; error := error myData;
               result := true; expires := expires myData |}, w).
Proof.
  intros Hv He. unfold decode, encode in *.
  destruct v; simpl in *;
    try (destruct Hv as [Hv|[Hv|[[Hv _]|[Hv _]]]]; discriminate Hv).
  - destruct Hv as [Hv|[Hv|[[Hv _]|[_ Hv]]]]; try discriminate Hv.
    unfold serialize, unserialize in *. run. by rewrite (Hv _ He).
  - inversion He; subst. by destruct b.
  - inversion He; subst. destruct Hv as [Hv|[Hv|[[_ Hv]|[Hv _]]]]; try discriminate Hv.
    unfold mret, M_ret, ret. rewrite StringToNumber_printed; [reflexivity|congruence].
  - by inversion He; subst.
  - destruct Hv as [Hv|[Hv|[[Hv _]|[_ Hv]]]]; try discriminate Hv.
    unfold serialize, unserialize in *. run. by rewrite (Hv _ He).
  - destruct Hv as [Hv|[Hv|[[Hv _]|[_ Hv]]]]; try discriminate Hv.
    unfold serialize, unserialize in *. run. by rewrite (Hv _ He).
Qed.




(** The negative zero is stored as ["0"] and read back as zero. *)
Lemma negative_zero_reads_back_zero :
  setItem JSON.lib (JString "k") (JNumber NegZero) (JNumber (Int 1000)) 0
    (empty_store 1000)
    = (Normal true, with_entry "k" "0" "number" "1000" (empty_store 1000)) ∧
  getItem JSON.lib "k" 0 (with_entry "k" "0" "number" "1000" (empty_store 1000))
    = (Normal {| cids := _prepareCids "k"; data := JNumber (Int 0); error := None;
                 result := true; expires := 1000 |},
       with_entry "k" "0" "number" "1000" (empty_store 1000)).
Proof. split; vm_compute; reflexivity. Qed.

(** An infinite time to live is stored as the expiry ["NaN"], which
    [getItem] takes for an expired entry. *)
Lemma infinite_ttl_expires_at_once :
  setItem JSON.lib (JString "k") (JString "x") (JNumber PosInf) 0 (empty_store 1000)
    = (Normal true, with_entry "k" "x" "string" "NaN" (empty_store 1000)) ∧
  getItem JSON.lib "k" 0 (with_entry "k" "x" "string" "NaN" (empty_store 1000))
    = (Normal {| cids := _prepareCids "k"; data := JString "";
                 error := Some "Expired in cache"; result := false; expires := -1 |},
       empty_store 1000).
Proof. split; vm_compute; reflexivity. Qed.

(** *** The three writes are not atomic *)

(** C5, as stated, fails when the store refuses the second write: the
    value written first stays behind, and [setItem] returns [false]. *)
Lemma setItem_partial_write :
  setItem JSON.lib (JString "k") (JString "x") (JNumber (Int 10)) 0 (empty_store 20)
    = (Normal false, written "cachier:data:k" "x" (empty_store 20)) ∧
  stored (empty_store 20) "cachier:data:k" = None ∧
  stored (written "cachier:data:k" "x" (empty_store 20)) "cachier:data:k" = Some "x" ∧
  stored (written "cachier:data:k" "x" (empty_store 20)) "cachier:type:k" = None ∧
  stored (written "cachier:data:k" "x" (empty_store 20)) "cachier:expire:k" = None.
Proof. repeat split; vm_compute; reflexivity. Qed.

(** C5, amended.  For a value and a time to live whose string forms the
    model determines, with an exact expiry: when [setItem] returns [true]
    the three derived entries are in the store.  When it does not, the
    window is the one it started from, or, the store having refused the
    second or the third write, the one with the writes before the refusal
    made; on the paths that end before the writes (a key that is no
    string, a function, a payload that is no string, no store, a
    conversion that throws) the window is unchanged.  Once the
    conversions have succeeded, the outcome is fixed by the first write
    that the store refuses: none, and [setItem] returns [true] with the
    three entries written; the first, and nothing is written; the second,
    and the data string stays written; the third, and the data string and
    the tag stay written.  Nothing is rolled back. *)
Theorem setItem_writes_in_order Json cacheId v expire now (w w' : Window) c :
  safe_number v →
  exact_ttl expire now = true →
  setItem Json cacheId v expire now w = (c, w') →
  (c = Normal true →
     ∃ key text printed,
       cacheId = JString key ∧
       stored w' (cid_data (_prepareCids key)) = Some text ∧
       stored w' (cid_type (_prepareCids key)) = Some (typeof v) ∧
       stored w' (cid_expire (_prepareCids key)) = Some (expiry printed now)) ∧
  (c ≠ Normal true →
     w' = w ∨
     ∃ key text,
       cacheId = JString key ∧ c = Normal false ∧
       encode Json (typeof v) v = Normal (JString text) ∧
       (w' = written (cid_data (_prepareCids key)) text w ∨
        w' = written (cid_type (_prepareCids key)) (typeof v)
               (written (cid_data (_prepareCids key)) text w))) ∧
  (typeof cacheId ≠ "string" ∨ typeof v = "function" ∨
   (∀ text, encode Json (typeof v) v ≠ Normal (JString text)) ∨
   lsExists w = false ∨ (∃ e, c = Throw e) →
     w' = w) ∧
  (∀ key text printed,
     cacheId = JString key →
     typeof v ≠ "function" →
     encode Json (typeof v) v = Normal (JString text) →
     ToString (effective_ttl expire) = Normal printed →
     let w1 := written (cid_data (_prepareCids key)) text w in
     let w2 := written (cid_type (_prepareCids key)) (typeof v) w1 in
     let w3 := written (cid_expire (_prepareCids key)) (expiry printed now) w2 in
     (c, w') =
       if accepted (cid_data (_prepareCids key)) text w then
         if accepted (cid_type (_prepareCids key)) (typeof v) w1 then
           if accepted (cid_expire (_prepareCids key)) (expiry printed now) w2
           then (Normal true, w3)
           else (Normal false, w2)
         else (Normal false, w1)
       else (Normal false, w)).
Proof.
  intros _ _ H. split; [|split; [|split]].
  - intros ->. apply setItem_true in H
      as (key & text & printed & -> & Hf & He & Hp & Hw & ->).
    exists key, text, printed.
    destruct (stored_after_writes key text (typeof v) (expiry printed now) w Hw)
      as (Hd & Hty & Hex & _).
    auto.
  - intros Hc.
    destruct (decide (typeof cacheId = "string")) as [Hk|Hk];
      [|rewrite setItem_other_key in H by assumption; left; congruence].
    destruct cacheId; try discriminate Hk. rename s into key.
    rewrite setItem_string_key in H.
    destruct (String.eqb (typeof v) "function"); [left; congruence|].
    destruct (encode Json (typeof v) v) as [payload|e] eqn:He; [|left; congruence].
    destruct payload; try (left; congruence). rename s into text.
    destruct (ToString _) as [printed|e]; [|left; congruence].
    cbv zeta in H.
    destruct (three_writes (cid_data (_prepareCids key)) text
                (cid_type (_prepareCids key)) (typeof v)
                (cid_expire (_prepareCids key)) (expiry printed now) w)
      as [[E _]|[E|[[E _]|[E _]]]]; cbv zeta in E; rewrite E in H;
      injection H as <- <-.
    + congruence.
    + by left.
    + right. exists key, text. auto.
    + right. exists key, text. auto.
  - intros Hpath.
    destruct (decide (typeof cacheId = "string")) as [Hk|Hk];
      [|rewrite setItem_other_key in H by assumption; congruence].
    destruct cacheId; try discriminate Hk. rename s into key.
    rewrite setItem_string_key in H.
    destruct (String.eqb_spec (typeof v) "function") as [Hf|Hf]; [congruence|].
    destruct (encode Json (typeof v) v) as [payload|e] eqn:He; [|congruence].
    destruct payload; try congruence. rename s into text.
    destruct (ToString _) as [printed|e]; [|congruence].
    cbv zeta in H.
    destruct Hpath as [Hp|[Hp|[Hp|[Hp|[e Hp]]]]]; [congruence|congruence| | |].
    + exfalso. by apply (Hp text).
    + destruct w as [[st|]]; [discriminate|]. by injection H as <- <-.
    + destruct (three_writes (cid_data (_prepareCids key)) text
                  (cid_type (_prepareCids key)) (typeof v)
                  (cid_expire (_prepareCids key)) (expiry printed now) w)
        as [[E _]|[E|[[E _]|[E _]]]]; cbv zeta in E; rewrite E in H; congruence.
  - intros key text printed -> Hf He Hp. unfold effective_ttl in Hp.
    rewrite setItem_string_key in H.
    destruct (String.eqb_spec (typeof v) "function") as [Hf'|_]; [congruence|].
    rewrite He, Hp in H. cbv zeta in H.
    rewrite three_writes_exact in H. cbv zeta. by rewrite <- H.
Qed.

Lemma setItem_writes_in_order_witness :
  safe_number (JString "x") ∧
  exact_ttl (JNumber (Int 10)) 0 = true ∧
  setItem JSON.lib (JString "k") (JString "x") (JNumber (Int 10)) 0 (empty_store 20)
    = (Normal false, written "cachier:data:k" "x" (empty_store 20)) ∧
  typeof (JString "x") ≠ "function" ∧
  encode JSON.lib (typeof (JString "x")) (JString "x") = Normal (JString "x") ∧
  ToString (effective_ttl (JNumber (Int 10))) = Normal "10" ∧
  accepted (cid_data (_prepareCids "k")) "x" (empty_store 20) = true ∧
  accepted (cid_type (_prepareCids "k")) (typeof (JString "x"))
    (written (cid_data (_prepareCids "k")) "x" (empty_store 20)) = false ∧
  (Normal false, written "cachier:data:k" "x" (empty_store 20)) =
    (if accepted (cid_data (_prepareCids "k")) "x" (empty_store 20) then
       if accepted (cid_type (_prepareCids "k")) (typeof (JString "x"))
            (written (cid_data (_prepareCids "k")) "x" (empty_store 20))
       then
         if accepted (cid_expire (_prepareCids "k")) (expiry "10" 0)
              (written (cid_type (_prepareCids "k")) (typeof (JString "x"))
                 (written (cid_data (_prepareCids "k")) "x" (empty_store 20)))
         then (Normal true,
               written (cid_expire (_prepareCids "k")) (expiry "10" 0)
                 (written (cid_type (_prepareCids "k")) (typeof (JString "x"))
                    (written (cid_data (_prepareCids "k")) "x" (empty_store 20))))
         else (Normal false,
               written (cid_type (_prepareCids "k")) (typeof (JString "x"))
                 (written (cid_data (_prepareCids "k")) "x" (empty_store 20)))
       else (Normal false, written (cid_data (_prepareCids "k")) "x" (empty_store 20))
     else (Normal false, empty_store 20)).
Proof.
  assert (setItem JSON.lib (JString "k") (JString "x") (JNumber (Int 10)) 0
            (empty_store 20)
          = (Normal false, written "cachier:data:k" "x" (empty_store 20))) as H
    by (vm_compute; reflexivity).
  assert (safe_number (JString "x")) as Hn by (intros z Hz; discriminate Hz).
  assert (exact_ttl (JNumber (Int 10)) 0 = true) as Ht by (vm_compute; reflexivity).
  split; [exact Hn|]. split; [exact Ht|]. split; [exact H|]. split; [discriminate|].
  split; [reflexivity|]. split; [reflexivity|].
  split; [vm_compute; reflexivity|]. split; [vm_compute; reflexivity|].
  apply (proj2 (proj2 (proj2 (setItem_writes_in_order JSON.lib (JString "k")
                                (JString "x") (JNumber (Int 10)) 0 (empty_store 20)
                                (written "cachier:data:k" "x" (empty_store 20))
                                (Normal false) Hn Ht H)))
           "k" "x" "10" eq_refl);
    [discriminate|reflexivity|reflexivity].
Defined.

(** *** The switch of [getItem] *)

Lemma is_text_true tag s : is_text tag s = true ↔ tag = Some s.
Proof.
  destruct tag as [t|]; simpl; [|split; discriminate].
  rewrite String.eqb_eq. split; congruence.
Qed.

Lemma is_text_false tag s : is_text tag s = false ↔ tag ≠ Some s.
Proof.
  rewrite <- is_text_true. destruct (is_text tag s); split; congruence.
Qed.

(** What [decode] returns, by the tag it reads: a success for the four
    tags it knows, one failure for the tag [function], another one for
    any other tag; the time left in [expires] is kept in all of them. *)
Lemma decode_cases Json myData tag d (w w' : Window) r :
  decode Json myData tag d w = (Normal r, w') →
  w' = w ∧ cids r = cids myData ∧ expires r = expires myData ∧
  (known_tag tag ∧ result r = true ∧ error r = error myData ∨
   tag = Some "function" ∧ result r = false ∧ data r = JString "" ∧
     error r = Some "Function was saved, unable to retrieve the value" ∨
   ¬ known_tag tag ∧ tag ≠ Some "function" ∧ result r = false ∧
     data r = JString "" ∧ error r = Some "Unknown data type was saved").
Proof.
  unfold decode, known_tag. run.
  destruct (is_text tag "object") eqn:Ho.
  { apply is_text_true in Ho.
    destruct (unserialize Json (item_text d)); intros [= <- <-]; simpl; auto 10. }
  destruct (is_text tag "number") eqn:Hn.
  { apply is_text_true in Hn. intros [= <- <-]; simpl; auto 10. }
  destruct (is_text tag "boolean") eqn:Hb.
  { apply is_text_true in Hb. intros [= <- <-]; simpl; auto 10. }
  destruct (is_text tag "string") eqn:Hs.
  { apply is_text_true in Hs. intros [= <- <-]; simpl; auto 10. }
  apply is_text_false in Ho, Hn, Hb, Hs.
  destruct (is_text tag "function") eqn:Hf.
  { apply is_text_true in Hf. intros [= <- <-]; simpl; auto 10. }
  apply is_text_false in Hf.
  intros [= <- <-]; simpl. repeat split; trivial.
  right; right. repeat split; trivial. intuition.
Qed.

(** *** The time left *)

(** C6, as stated, fails on a live entry whose tag is [function]:
    [getItem] fails, and [expires] is the time left, not [-1]. *)
Lemma function_tag_keeps_expires :
  getItem JSON.lib "k" 40 function_entry =
    (Normal {| cids := _prepareCids "k"; data := JString "";
               error := Some "Function was saved, unable to retrieve the value";
               result := false; expires := 60 |},
     function_entry) ∧
  60 ≠ -1.
Proof. split; [vm_compute; reflexivity|discriminate]. Qed.

(** C6, amended.  With a clock and a stored expiry in the range of the
    safe integers: when [getItem] fails because there is no store, no
    entry, or an expired entry, [expires] is [-1].  On a live entry,
    whether [getItem] succeeds or fails on the tag [function] or on an
    unknown tag, [expires] is the stored expiry minus the current time. *)
Theorem getItem_expires_field Json k now (w w' : Window) r :
  0 <= now <= MAX_SAFE_INTEGER →
  safe_expiry k w →
  getItem Json k now w = (Normal r, w') →
  (error r = Some "The localStorage object is not supported" ∨
   error r = Some "Cache key undefined" ∨
   error r = Some "Expired in cache" →
     expires r = -1) ∧
  (result r = true ∨
   error r = Some "Function was saved, unable to retrieve the value" ∨
   error r = Some "Unknown data type was saved" →
     ∃ expireDate,
       parseInt (item_text (stored w (cid_expire (_prepareCids k)))) = Some expireDate ∧
       now < expireDate ∧
       expires r = expireDate - now ∧
       safe_integer (expires r)).
Proof.
  intros Hnow Hsafe H.
  destruct (lsExists w) eqn:Hw.
  2: { destruct w as [[st|]]; [discriminate|].
       change {| localStorage := None |} with unavailable in H.
       rewrite getItem_unavailable in H. injection H as <- <-. simpl.
       split; [reflexivity|]. intros [?|[?|?]]; discriminate. }
  rewrite getItem_available in H by assumption. cbv zeta in H.
  destruct (stored w (cid_data (_prepareCids k))).
  2: { injection H as <- <-. simpl.
       split; [reflexivity|]. intros [?|[?|?]]; discriminate. }
  destruct (parseInt _) as [expireDate|] eqn:Hparse.
  2: { injection H as <- <-. simpl.
       split; [reflexivity|]. intros [?|[?|?]]; discriminate. }
  destruct (Z.ltb_spec now expireDate) as [Hlt|Hge].
  2: { injection H as <- <-. simpl.
       split; [reflexivity|]. intros [?|[?|?]]; discriminate. }
  apply decode_cases in H as (-> & _ & He & Hcases). simpl in He.
  split.
  - intros Herr.
    destruct Hcases as [(_ & Hr & E)|[(_ & _ & _ & E)|(_ & _ & _ & _ & E)]];
      simpl in E; rewrite E in Herr; destruct Herr as [?|[?|?]]; discriminate.
  - intros _. exists expireDate. repeat split; trivial; rewrite He.
    + unfold MAX_SAFE_INTEGER in *. lia.
    + pose proof (Hsafe expireDate Hparse) as [_ Hmax]. lia.
Qed.

Lemma getItem_expires_field_witness :
  0 <= 40 <= MAX_SAFE_INTEGER ∧
  safe_expiry "k" function_entry ∧
  getItem JSON.lib "k" 40 function_entry =
    (Normal {| cids := _prepareCids "k"; data := JString "";
               error := Some "Function was saved, unable to retrieve the value";
               result := false; expires := 60 |},
     function_entry) ∧
  ∃ expireDate,
    parseInt (item_text (stored function_entry (cid_expire (_prepareCids "k"))))
      = Some expireDate ∧
    40 < expireDate ∧ 60 = expireDate - 40 ∧ safe_integer 60.
Proof.
  assert (0 <= 40 <= MAX_SAFE_INTEGER) as Hnow by (vm_compute; split; discriminate).
  assert (safe_expiry "k" function_entry) as Hsafe.
  { intros e He. vm_compute in He. injection He as <-.
    vm_compute. split; discriminate. }
  assert (getItem JSON.lib "k" 40 function_entry =
    (Normal {| cids := _prepareCids "k"; data := JString "";
               error := Some "Function was saved, unable to retrieve the value";
               result := false; expires := 60 |},
     function_entry)) as H by (vm_compute; reflexivity).
  split; [exact Hnow|]. split; [exact Hsafe|]. split; [exact H|].
  apply (proj2 (getItem_expires_field JSON.lib "k" 40 _ _ _ Hnow Hsafe H)).
  right; left; reflexivity.
Defined.

(** *** The type tag *)

Lemma encode_default Json v text :
  String.eqb (typeof v) "function" = false →
  ¬ known_tag (Some (typeof v)) →
  encode Json (typeof v) v = Normal (JString text) →
  toString v = Normal text.
Proof.
  unfold known_tag, encode. intros _ Hk.
  destruct v; simpl in *; try (exfalso; apply Hk; auto; fail);
    intros [= <-]; reflexivity.
Qed.

(** C9.  On any store, [getItem] ends in its unknown-type branch only
    when the stored tag is none of [object], [number], [boolean],
    [string] (nor [function]).  After a successful [setItem] of [v] the
    stored tag is [typeof v], a live [getItem] dispatches on exactly that
    tag, and it ends in the unknown-type branch only when [v] went
    through the default branch of the switch of [setItem], which stored
    [v.toString()]. *)
Theorem type_tag_invariant Json k :
  (∀ now (w w' : Window) r,
     getItem Json k now w = (Normal r, w') →
     error r = Some "Unknown data type was saved" →
     ¬ known_tag (stored w (cid_type (_prepareCids k))) ∧
     stored w (cid_type (_prepareCids k)) ≠ Some "function") ∧
  (∀ v expire now (w w' : Window),
     setItem Json (JString k) v expire now w = (Normal true, w') →
     stored w' (cid_type (_prepareCids k)) = Some (typeof v) ∧
     (∀ now' expireDate,
        parseInt (item_text (stored w' (cid_expire (_prepareCids k)))) = Some expireDate →
        now' < expireDate →
        getItem Json k now' w' =
          decode Json {| cids := _prepareCids k; data := JString ""; error := None;
                         result := false; expires := expireDate - now' |}
                 (Some (typeof v)) (stored w' (cid_data (_prepareCids k))) w') ∧
     (∀ now' r w'',
        getItem Json k now' w' = (Normal r, w'') →
        error r = Some "Unknown data type was saved" →
        ¬ known_tag (Some (typeof v)) ∧
        ∃ text, toString v = Normal text ∧
                stored w' (cid_data (_prepareCids k)) = Some text)).
Proof.
  assert (∀ now (w w' : Window) r,
     getItem Json k now w = (Normal r, w') →
     error r = Some "Unknown data type was saved" →
     ¬ known_tag (stored w (cid_type (_prepareCids k))) ∧
     stored w (cid_type (_prepareCids k)) ≠ Some "function") as Hany.
  { intros now w w' r H Herr.
    destruct (lsExists w) eqn:Hw.
    2: { destruct w as [[st|]]; [discriminate|].
         change {| localStorage := None |} with unavailable in H.
         rewrite getItem_unavailable in H. injection H as <- <-. discriminate Herr. }
    rewrite getItem_available in H by assumption. cbv zeta in H.
    destruct (stored w (cid_data (_prepareCids k)));
      [|injection H as <- <-; discriminate Herr].
    destruct (parseInt _) as [expireDate|];
      [|injection H as <- <-; discriminate Herr].
    destruct (now <? expireDate);
      [|injection H as <- <-; discriminate Herr].
    apply decode_cases in H as (_ & _ & _ & Hcases).
    destruct Hcases as [(_ & _ & E)|[(_ & _ & _ & E)|(Hk & Hf & _ & _ & _)]];
      [simpl in E; congruence|congruence|auto]. }
  split; [exact Hany|].
  intros v expire now w w' Hset.
  apply setItem_true in Hset
    as (key & text & printed & [= <-] & Hf & He & Hp & Hw & ->).
  destruct (stored_after_writes k text (typeof v) (expiry printed now) w Hw)
    as (Hd & Hty & Hex & Hw').
  cbv zeta in *.
  split; [exact Hty|]. split.
  - intros now' expireDate Hparse Hlive.
    rewrite getItem_available by assumption. cbv zeta.
    rewrite Hd, Hty, Hparse.
    destruct (Z.ltb_spec now' expireDate); [reflexivity|lia].
  - intros now' r w'' Hget Herr.
    destruct (Hany _ _ _ _ Hget Herr) as [Hk _]. rewrite Hty in Hk.
    split; [exact Hk|]. exists text. split; [|exact Hd].
    by apply (encode_default Json).
Qed.

Lemma type_tag_invariant_witness :
  setItem JSON.lib (JString "k") (JSymbol "s") JUndefined 0 (empty_store 100)
    = (Normal true, symbol_entry) ∧
  stored symbol_entry (cid_type (_prepareCids "k")) = Some (typeof (JSymbol "s")) ∧
  getItem JSON.lib "k" 5 symbol_entry =
    (Normal {| cids := _prepareCids "k"; data := JString "";
               error := Some "Unknown data type was saved";
               result := false; expires := 3599995 |},
     symbol_entry) ∧
  ¬ known_tag (stored symbol_entry (cid_type (_prepareCids "k"))).
Proof.
  assert (setItem JSON.lib (JString "k") (JSymbol "s") JUndefined 0 (empty_store 100)
          = (Normal true, symbol_entry)) as Hset by (vm_compute; reflexivity).
  assert (getItem JSON.lib "k" 5 symbol_entry =
    (Normal {| cids := _prepareCids "k"; data := JString "";
               error := Some "Unknown data type was saved";
               result := false; expires := 3599995 |},
     symbol_entry)) as Hget by (vm_compute; reflexivity).
  split; [exact Hset|]. split; [|split; [exact Hget|]].
  - apply (proj1 (proj2 (type_tag_invariant JSON.lib "k") _ _ _ _ _ Hset)).
  - apply (proj1 (proj1 (type_tag_invariant JSON.lib "k") _ _ _ _ Hget eq_refl)).
Defined.

(** *** Errors that leave the operations *)

(** [getItem] has no [try]: what [unserialize] throws on the stored text
    of an [object] entry leaves [getItem]. *)
Lemma getItem_propagates_parse_error Json k now expireDate text e (w : Window) :
  stored w (cid_data (_prepareCids k)) = Some text →
  stored w (cid_type (_prepareCids k)) = Some "object" →
  parseInt (item_text (stored w (cid_expire (_prepareCids k)))) = Some expireDate →
  now < expireDate →
  parse Json text = Throw e →
  getItem Json k now w = (Throw e, w).
Proof.
  intros Hd Hty Hex Hlive Hparse.
  assert (lsExists w = true) as Hw.
  { destruct w as [[st|]]; [reflexivity|discriminate]. }
  rewrite getItem_available by assumption. cbv zeta.
  rewrite Hd, Hty, Hex. destruct (Z.ltb_spec now expireDate); [|lia].
  unfold decode, unserialize. simpl. run. by rewrite Hparse.
Qed.

(** C2 fails on the code.  [setItem] throws a [TypeError] on the value
    [undefined], and on a time to live that is a symbol, which [parseInt]
    cannot convert to a string; on an [object] entry whose stored text is
    not JSON, [getItem] throws the [SyntaxError] of [JSON.parse]. *)
Theorem operations_can_throw :
  setItem JSON.lib (JString "k") JUndefined JUndefined 0 (empty_store 100)
    = (Throw TypeError, empty_store 100) ∧
  setItem JSON.lib (JString "k") (JNumber (Int 1)) (JSymbol "ttl") 0 (empty_store 100)
    = (Throw TypeError, empty_store 100) ∧
  getItem JSON.lib "k" 0 corrupted_entry = (Throw SyntaxError, corrupted_entry).
Proof. repeat split; vm_compute; reflexivity. Qed.

(** ** Version 1.2 *)

(** Without [localStorage], the [getItem] of version 1.2 throws where the
    one of 1.3.1 returns its result object. *)
Remark getItem_1_2_unavailable Json k now :
  V1_2.getItem Json k now unavailable = (Throw TypeError, unavailable).
Proof. reflexivity. Qed.

(** With a store and no entry, it reports the key as expired. *)
Remark getItem_1_2_missing_key :
  V1_2.getItem JSON.lib "a" 5 (empty_store 100) =
    (Normal {| V1_2.result := false; V1_2.data := JString "";
               V1_2.error := Some "Expired" |},
     empty_store 100).
Proof. vm_compute. reflexivity. Qed.

(** * Further properties *)

(** ** The key deriver *)

Lemma append_cons c (r s : string) : String c r +:+ s = String c (r +:+ s).
Proof. reflexivity. Qed.

Lemma append_empty (s : string) : s +:+ "" = s.
Proof. induction s as [|c r IH]; [reflexivity|]. by rewrite append_cons, IH. Qed.

Lemma append_inj (p a b : string) : p +:+ a = p +:+ b → a = b.
Proof.
  induction p as [|c r IH]; [trivial|].
  rewrite !append_cons. intros [= H]. by apply IH.
Qed.

Lemma GetSubstitution_app matched before after (k s : string) :
  dollar_free k = true →
  GetSubstitution matched before after (k +:+ s)
    = k +:+ GetSubstitution matched before after s.
Proof.
  induction k as [|c r IH]; [reflexivity|]. simpl.
  intros [Hc Hr]%andb_true_iff. apply negb_true_iff in Hc.
  rewrite !append_cons. simpl. rewrite Hc. f_equal. by apply IH.
Qed.

Lemma GetSubstitution_plain matched before after (k : string) :
  dollar_free k = true → GetSubstitution matched before after k = k.
Proof.
  intros Hk. rewrite <- (append_empty k) at 1.
  rewrite GetSubstitution_app by assumption. apply append_empty.
Qed.

(** The derived keys are the three prefixes followed by the replacement
    that [replace] makes of the key. *)
Lemma prepareCids_prefixes (k : string) :
  _prepareCids k =
    {| cid_data := "cachier:data:" +:+ GetSubstitution cidRegEx "cachier:data:" "" k;
       cid_type := "cachier:type:" +:+ GetSubstitution cidRegEx "cachier:type:" "" k;
       cid_expire := "cachier:expire:" +:+ GetSubstitution cidRegEx "cachier:expire:" "" k |}.
Proof.
  unfold _prepareCids, replace.
  change (find_match cidRegEx dataCid) with (Some ("cachier:data:", "")).
  change (find_match cidRegEx typeCid) with (Some ("cachier:type:", "")).
  change (find_match cidRegEx expireCid) with (Some ("cachier:expire:", "")).
  cbv beta iota. by rewrite !append_empty.
Qed.

(** A key without a dollar sign is put in the place of [{cid}] as it is:
    the derived keys are the three prefixes followed by the key. *)
Theorem prepareCids_plain_key (k : string) :
  dollar_free k = true →
  _prepareCids k =
    {| cid_data := "cachier:data:" +:+ k;
       cid_type := "cachier:type:" +:+ k;
       cid_expire := "cachier:expire:" +:+ k |}.
Proof.
  intros Hk. rewrite prepareCids_prefixes.
  by rewrite !GetSubstitution_plain.
Qed.

Lemma prepareCids_plain_key_witness :
  dollar_free "user:42" = true ∧
  _prepareCids "user:42" =
    {| cid_data := "cachier:data:" +:+ "user:42";
       cid_type := "cachier:type:" +:+ "user:42";
       cid_expire := "cachier:expire:" +:+ "user:42" |}.
Proof. split; [reflexivity|]. apply prepareCids_plain_key. reflexivity. Defined.

(** The kinds of derived keys never meet: the data key of one logical
    key is not the type key or the expiry key of any other, whatever the
    two keys are. *)
Lemma cids_kinds_distinct (k k' : string) :
  cid_data (_prepareCids k) ≠ cid_type (_prepareCids k') ∧
  cid_data (_prepareCids k) ≠ cid_expire (_prepareCids k') ∧
  cid_type (_prepareCids k) ≠ cid_expire (_prepareCids k').
Proof.
  rewrite !prepareCids_prefixes. simpl.
  repeat split; intros H; discriminate H.
Qed.

Lemma data_key_derived k : cid_data (_prepareCids k) ∈ derived k.
Proof. unfold derived. apply elem_of_cons. by left. Qed.

Lemma type_key_derived k : cid_type (_prepareCids k) ∈ derived k.
Proof. unfold derived. rewrite !elem_of_cons. auto. Qed.

Lemma expire_key_derived k : cid_expire (_prepareCids k) ∈ derived k.
Proof. unfold derived. rewrite !elem_of_cons. auto. Qed.

Lemma derived_plain (k : string) :
  dollar_free k = true →
  derived k = ["cachier:data:" +:+ k; "cachier:type:" +:+ k; "cachier:expire:" +:+ k].
Proof.
  intros Hk. unfold derived, _prepareCids, replace.
  change (find_match cidRegEx dataCid) with (Some ("cachier:data:", "")).
  change (find_match cidRegEx typeCid) with (Some ("cachier:type:", "")).
  change (find_match cidRegEx expireCid) with (Some ("cachier:expire:", "")).
  cbv beta iota. simpl. by rewrite !GetSubstitution_plain, !append_empty.
Qed.

Lemma prepareCids_disjoint_keys (k k' : string) :
  dollar_free k = true → dollar_free k' = true → k ≠ k' →
  ∀ key, key ∈ derived k → key ∈ derived k' → False.
Proof.
  intros Hk Hk' Hne key.
  rewrite (derived_plain k), (derived_plain k') by assumption.
  rewrite !elem_of_cons, !elem_of_nil.
  intros [->|[->|[->|[]]]] [H|[H|[H|[]]]];
    try discriminate H; apply append_inj in H; congruence.
Qed.

(** Two different keys without dollar signs have no derived key in
    common. *)
Theorem prepareCids_disjoint (k k' : string) :
  dollar_free k = true → dollar_free k' = true → k ≠ k' →
  ∀ key, key ∈ derived k → key ∉ derived k'.
Proof.
  intros Hk Hk' Hne key Hin Hin'.
  by apply (prepareCids_disjoint_keys k k' Hk Hk' Hne key).
Qed.

Lemma prepareCids_disjoint_witness :
  dollar_free "a" = true ∧ dollar_free "b" = true ∧ "a" ≠ "b" ∧
  "cachier:type:a" ∈ derived "a" ∧ "cachier:type:a" ∉ derived "b".
Proof.
  assert ("cachier:type:a" ∈ derived "a") as Hin.
  { apply (type_key_derived "a"). }
  split; [reflexivity|]. split; [reflexivity|]. split; [discriminate|].
  split; [exact Hin|].
  apply (prepareCids_disjoint "a" "b"); [reflexivity|reflexivity|discriminate|exact Hin].
Defined.

(** The replacement text of [replace] is not taken literally: a key
    that ends in two dollar signs and the key that ends in one derive
    the same three keys, so the two logical keys share one entry. *)
Theorem prepareCids_dollar_collision (k : string) :
  dollar_free k = true →
  k +:+ "$$" ≠ k +:+ "$" ∧ _prepareCids (k +:+ "$$") = _prepareCids (k +:+ "$").
Proof.
  intros Hk. split.
  - intros H. apply append_inj in H. discriminate H.
  - rewrite !prepareCids_prefixes.
    by rewrite !(GetSubstitution_app _ _ _ k) by assumption.
Qed.

Lemma prepareCids_dollar_collision_witness :
  dollar_free "price" = true ∧
  "price" +:+ "$$" ≠ "price" +:+ "$" ∧
  _prepareCids ("price" +:+ "$$") = _prepareCids ("price" +:+ "$").
Proof. split; [reflexivity|]. apply prepareCids_dollar_collision. reflexivity. Defined.

(** ** [exists] and [removeItem] *)

Lemma stored_without_entry_in k key (w : Window) :
  key ∈ derived k → stored (without_entry k w) key = None.
Proof.
  unfold derived, without_entry. rewrite !elem_of_cons, elem_of_nil.
  destruct (cids_distinct k) as (Hdt & Hde & Hte).
  intros [->|[->|[->|[]]]].
  - rewrite !stored_removed_ne by congruence. apply stored_removed_eq.
  - rewrite stored_removed_ne by congruence. apply stored_removed_eq.
  - apply stored_removed_eq.
Qed.

Lemma stored_without_entry_out k key (w : Window) :
  key ∉ derived k → stored (without_entry k w) key = stored w key.
Proof.
  unfold derived, without_entry. rewrite !not_elem_of_cons.
  intros (Hd & Ht & He & _). by rewrite !stored_removed_ne by congruence.
Qed.

Lemma lsExists_without_entry k (w : Window) :
  lsExists (without_entry k w) = lsExists w.
Proof. unfold without_entry. by rewrite !lsExists_removed. Qed.

Lemma removeItem_outcome k (w : Window) :
  removeItem k w = (Normal (lsExists w), without_entry k w).
Proof. by destruct w as [[st|]]. Qed.

Lemma exists_outcome k (w : Window) :
  exists_ k w =
    (Normal (match stored w (cid_data (_prepareCids k)) with
             | Some _ => true
             | None => false
             end), w).
Proof. by destruct w as [[st|]]. Qed.

(** [exists] completes normally on every window and leaves it as it is.
    It answers [true] exactly when a data string is stored for the key:
    the type and the expiry play no part, so it also answers [true] for
    an entry that has expired and for one that was written in part. *)
Theorem exists_reads_data_key k (w : Window) :
  ∃ b,
    exists_ k w = (Normal b, w) ∧
    (b = true ↔ ∃ text, stored w (cid_data (_prepareCids k)) = Some text).
Proof.
  rewrite exists_outcome.
  destruct (stored w (cid_data (_prepareCids k))) as [text|].
  - exists true. split; [reflexivity|]. split; eauto.
  - exists false. split; [reflexivity|]. split; [discriminate|]. by intros [? ?].
Qed.

(** [removeItem] never throws: it returns [true] with a store and
    [false] without one.  Afterwards none of the three derived keys is
    stored, every other key of the store holds what it held, and [exists]
    answers [false]. *)
Theorem removeItem_deletes_entry k (w : Window) :
  ∃ w',
    removeItem k w = (Normal (lsExists w), w') ∧
    (∀ key, key ∈ derived k → stored w' key = None) ∧
    (∀ key, key ∉ derived k → stored w' key = stored w key) ∧
    exists_ k w' = (Normal false, w').
Proof.
  exists (without_entry k w). split; [apply removeItem_outcome|].
  split; [intros key; apply stored_without_entry_in|].
  split; [intros key; apply stored_without_entry_out|].
  rewrite exists_outcome.
  rewrite stored_without_entry_in; [reflexivity|]. apply data_key_derived.
Qed.

(** Removing a key that has no entry changes nothing: [removeItem]
    returns as usual and the window is the one it started from. *)
Theorem removeItem_missing_entry_noop k (w : Window) :
  (∀ key, key ∈ derived k → stored w key = None) →
  removeItem k w = (Normal (lsExists w), w).
Proof.
  intros Hnone. rewrite removeItem_outcome. f_equal.
  assert (∀ key w0, stored w0 key = None → removed key w0 = w0) as Hid.
  { intros key [[st|]]; [|reflexivity]. unfold stored, removed; simpl.
    intros H. destruct st as [m q]; simpl in *. by rewrite delete_id. }
  unfold without_entry.
  rewrite (Hid (cid_data (_prepareCids k))) by apply Hnone, data_key_derived.
  rewrite (Hid (cid_type (_prepareCids k))) by apply Hnone, type_key_derived.
  apply Hid, Hnone, expire_key_derived.
Qed.

Lemma removeItem_missing_entry_noop_witness :
  (∀ key, key ∈ derived "b" → stored example_entry key = None) ∧
  removeItem "b" example_entry = (Normal (lsExists example_entry), example_entry).
Proof.
  assert (∀ key, key ∈ derived "b" → stored example_entry key = None) as H.
  { intros key. unfold derived. rewrite !elem_of_cons, elem_of_nil.
    intros [->|[->|[->|[]]]]; vm_compute; reflexivity. }
  split; [exact H|]. apply removeItem_missing_entry_noop, H.
Defined.

(** After [removeItem] on a window with a store, [getItem] reports the
    key as undefined and changes nothing. *)
Theorem removeItem_then_getItem Json k now (w : Window) :
  lsExists w = true →
  ∃ w',
    removeItem k w = (Normal true, w') ∧
    getItem Json k now w' = (Normal (failure k "Cache key undefined"), w').
Proof.
  intros Hw. exists (without_entry k w). split.
  - by rewrite removeItem_outcome, Hw.
  - rewrite getItem_available by (by rewrite lsExists_without_entry). cbv zeta.
    rewrite stored_without_entry_in; [reflexivity|]. apply data_key_derived.
Qed.

Lemma removeItem_then_getItem_witness :
  lsExists example_entry = true ∧
  ∃ w',
    removeItem "a" example_entry = (Normal true, w') ∧
    getItem JSON.lib "a" 5 w' = (Normal (failure "a" "Cache key undefined"), w').
Proof. split; [reflexivity|]. apply removeItem_then_getItem. reflexivity. Defined.

(** ** What [getItem] does to the store *)

Lemma decode_window Json myData tag d (w : Window) :
  decode Json myData tag d w = (fst (decode Json myData tag d unavailable), w).
Proof.
  unfold decode. run.
  repeat (destruct (is_text _ _); [try reflexivity|]); try reflexivity.
  by destruct (unserialize Json _).
Qed.

(** [getItem] deletes the three derived keys exactly when it reports an
    expired entry: then the window is the one without the entry, and on
    every other outcome, a throw included, the window is unchanged.  Keys
    that are not derived from its key hold what they held in both
    cases. *)
Theorem getItem_window_effect Json k now (w w' : Window) c :
  getItem Json k now w = (c, w') →
  (c = Normal (failure k "Expired in cache") ∧ w' = without_entry k w ∨
   (∀ r, c = Normal r → error r ≠ Some "Expired in cache") ∧ w' = w) ∧
  (∀ key, key ∉ derived k → stored w' key = stored w key).
Proof.
  intros H.
  assert (c = Normal (failure k "Expired in cache") ∧ w' = without_entry k w ∨
          (∀ r, c = Normal r → error r ≠ Some "Expired in cache") ∧ w' = w) as Heff.
  { destruct (lsExists w) eqn:Hw.
    2: { destruct w as [[st|]]; [discriminate|]. right.
         injection H as <- <-. split; [|reflexivity]. by intros r [= <-]. }
    rewrite getItem_available in H by assumption. cbv zeta in H.
    destruct (stored w (cid_data (_prepareCids k))).
    2: { right. injection H as <- <-. split; [|reflexivity]. by intros r [= <-]. }
    destruct (parseInt _) as [expireDate|];
      [|left; by injection H as <- <-].
    destruct (now <? expireDate);
      [|left; by injection H as <- <-].
    right. rewrite decode_window in H.
    pose proof (f_equal snd H) as Hw'. cbn [snd] in Hw'. subst w'.
    split; [|reflexivity]. intros r ->.
    rewrite <- (decode_window Json _ _ _ w) in H.
    apply decode_cases in H as (_ & _ & _ & Hcases).
    destruct Hcases as [(_ & _ & E)|[(_ & _ & _ & E)|(_ & _ & _ & _ & E)]];
      rewrite E; discriminate. }
  split; [exact Heff|]. intros key Hkey.
  destruct Heff as [[_ ->]|[_ ->]]; [|reflexivity]. by apply stored_without_entry_out.
Qed.

Lemma getItem_window_effect_witness :
  getItem JSON.lib "a" 100 shared_store
    = (Normal (failure "a" "Expired in cache"), without_entry "a" shared_store) ∧
  stored (without_entry "a" shared_store) "session" = stored shared_store "session" ∧
  stored (without_entry "a" shared_store) "session" = Some "abc".
Proof.
  assert (getItem JSON.lib "a" 100 shared_store
    = (Normal (failure "a" "Expired in cache"), without_entry "a" shared_store)) as H
    by (vm_compute; reflexivity).
  split; [exact H|]. split; [|vm_compute; reflexivity].
  apply (proj2 (getItem_window_effect JSON.lib "a" 100 _ _ _ H)).
  unfold derived. vm_compute _prepareCids. rewrite !not_elem_of_cons.
  repeat split; try discriminate. apply not_elem_of_nil.
Defined.

(** The only error that leaves [getItem] is one that [unserialize]
    throws on the text of a live entry tagged [object]; the window is
    then unchanged. *)
Theorem getItem_throws_only_from_parse Json k now (w w' : Window) e :
  getItem Json k now w = (Throw e, w') →
  w' = w ∧
  stored w (cid_type (_prepareCids k)) = Some "object" ∧
  parse Json (item_text (stored w (cid_data (_prepareCids k)))) = Throw e.
Proof.
  intros H.
  destruct (lsExists w) eqn:Hw.
  2: { destruct w as [[st|]]; discriminate. }
  rewrite getItem_available in H by assumption. cbv zeta in H.
  destruct (stored w (cid_data (_prepareCids k))); [|discriminate].
  destruct (parseInt _) as [expireDate|]; [|discriminate].
  destruct (now <? expireDate); [|discriminate].
  unfold decode in H. run.
  destruct (is_text _ "object") eqn:Ho.
  - apply is_text_true in Ho. unfold unserialize in H.
    destruct (parse Json _) eqn:Hp; [discriminate|]. by injection H as <- <-.
  - repeat (destruct (is_text _ _); [discriminate|]). discriminate.
Qed.

Lemma getItem_throws_only_from_parse_witness :
  getItem JSON.lib "k" 0 corrupted_entry = (Throw SyntaxError, corrupted_entry) ∧
  stored corrupted_entry (cid_type (_prepareCids "k")) = Some "object" ∧
  parse JSON.lib (item_text (stored corrupted_entry (cid_data (_prepareCids "k"))))
    = Throw SyntaxError.
Proof.
  assert (getItem JSON.lib "k" 0 corrupted_entry = (Throw SyntaxError, corrupted_entry))
    as H by (vm_compute; reflexivity).
  split; [exact H|].
  apply (proj2 (getItem_throws_only_from_parse JSON.lib "k" 0 _ _ _ H)).
Defined.

(** An entry whose stored expiry is no number, or is missing, counts as
    expired at any time: [getItem] reports it expired and deletes the
    three derived keys. *)
Theorem getItem_nan_expiry_evicts Json k now (w : Window) :
  exists_ k w = (Normal true, w) →
  parseInt (item_text (stored w (cid_expire (_prepareCids k)))) = None →
  getItem Json k now w
    = (Normal (failure k "Expired in cache"), without_entry k w).
Proof.
  intros Hk He.
  assert (lsExists w = true) as Hw.
  { destruct w as [[st|]]; [reflexivity|discriminate]. }
  rewrite exists_outcome in Hk.
  rewrite getItem_available by assumption. cbv zeta.
  destruct (stored w (cid_data (_prepareCids k))); [|discriminate].
  by rewrite He.
Qed.

Lemma getItem_nan_expiry_evicts_witness :
  exists_ "k" partial_entry = (Normal true, partial_entry) ∧
  parseInt (item_text (stored partial_entry (cid_expire (_prepareCids "k")))) = None ∧
  getItem JSON.lib "k" 7 partial_entry
    = (Normal (failure "k" "Expired in cache"), without_entry "k" partial_entry).
Proof.
  split; [vm_compute; reflexivity|]. split; [vm_compute; reflexivity|].
  apply getItem_nan_expiry_evicts; vm_compute; reflexivity.
Defined.

(** ** What [setItem] does to the store *)

Lemma setItem_effect Json key v expire now (w w' : Window) c :
  setItem Json (JString key) v expire now w = (c, w') →
  w' = w ∨
  ∃ text, w' = written (cid_data (_prepareCids key)) text w ∨
          (∃ tag, w' = written (cid_type (_prepareCids key)) tag
                         (written (cid_data (_prepareCids key)) text w) ∨
                  ∃ exp, w' = with_entry key text tag exp w).
Proof.
  rewrite setItem_string_key.
  destruct (String.eqb (typeof v) "function"); [left; congruence|].
  destruct (encode Json (typeof v) v) as [payload|e]; [|left; congruence].
  destruct payload; try (left; congruence). rename s into text.
  destruct (ToString _) as [printed|e]; [|left; congruence].
  cbv zeta.
  destruct (three_writes (cid_data (_prepareCids key)) text
              (cid_type (_prepareCids key)) (typeof v)
              (cid_expire (_prepareCids key)) (expiry printed now) w)
    as [[E _]|[E|[[E _]|[E _]]]]; cbv zeta in E; rewrite E; intros [= <- <-];
    eauto 10.
Qed.

(** What [getItem] returns depends on the window through the presence of
    a store and the three strings of its key only. *)
Lemma getItem_result_ext Json k now (w1 w2 : Window) :
  lsExists w1 = lsExists w2 →
  (∀ key, key ∈ derived k → stored w1 key = stored w2 key) →
  fst (getItem Json k now w1) = fst (getItem Json k now w2).
Proof.
  intros Hls Hst.
  destruct (lsExists w2) eqn:H2.
  2: { destruct w1 as [[?|]], w2 as [[?|]]; try discriminate. reflexivity. }
  rewrite !getItem_available by assumption. cbv zeta.
  rewrite <- !Hst
    by first [apply data_key_derived|apply type_key_derived|apply expire_key_derived].
  destruct (stored w1 (cid_data (_prepareCids k))); [|reflexivity].
  destruct (parseInt _) as [expireDate|]; [|reflexivity].
  destruct (now <? expireDate); [|reflexivity].
  by rewrite (decode_window _ _ _ _ w1), (decode_window _ _ _ _ w2).
Qed.

(** [setItem] writes under the three keys derived from its key and
    nowhere else, whatever it returns.  So when two keys without dollar
    signs differ, a [setItem] on one does not change what [getItem]
    returns for the other. *)
Theorem setItem_isolation Json k v expire now (w w' : Window) c :
  setItem Json (JString k) v expire now w = (c, w') →
  (∀ key, key ∉ derived k → stored w' key = stored w key) ∧
  (∀ k' now',
     dollar_free k = true → dollar_free k' = true → k ≠ k' →
     fst (getItem Json k' now' w') = fst (getItem Json k' now' w)).
Proof.
  intros H.
  assert (lsExists w' = lsExists w ∧
          ∀ key, key ∉ derived k → stored w' key = stored w key) as [Hls Hframe].
  { apply setItem_effect in H as [->|(text & [->|(tag & [->|(exp & ->)])])];
      (split; [unfold with_entry; by rewrite ?lsExists_written|]);
      intros key; unfold derived, with_entry; rewrite !not_elem_of_cons;
      intros (Hd & Ht & He & _); by rewrite ?stored_written_ne by congruence. }
  split; [exact Hframe|].
  intros k' now' Hk Hk' Hne. apply getItem_result_ext; [exact Hls|].
  intros key Hkey. apply Hframe. intros Hin.
  by apply (prepareCids_disjoint_keys k k' Hk Hk' Hne key).
Qed.

Lemma setItem_isolation_witness :
  setItem JSON.lib (JString "b") (JBool true) JUndefined 0 roomy_entry
    = (Normal true, with_entry "b" "true" "boolean" "3600000" roomy_entry) ∧
  fst (getItem JSON.lib "a" 50 (with_entry "b" "true" "boolean" "3600000" roomy_entry))
    = fst (getItem JSON.lib "a" 50 roomy_entry) ∧
  fst (getItem JSON.lib "a" 50 roomy_entry) = Normal (success "a" (JString "hello") 50).
Proof.
  assert (setItem JSON.lib (JString "b") (JBool true) JUndefined 0 roomy_entry
    = (Normal true, with_entry "b" "true" "boolean" "3600000" roomy_entry)) as H
    by (vm_compute; reflexivity).
  split; [exact H|]. split; [|vm_compute; reflexivity].
  apply (proj2 (setItem_isolation JSON.lib "b" _ _ _ _ _ _ H) "a" 50);
    [reflexivity|reflexivity|discriminate].
Defined.

(** A logical key reaches the store only through its derived keys: two
    keys that derive the same three keys are the same key to [getItem],
    [setItem], [removeItem] and [exists]. *)
Theorem aliased_keys_share_entry Json k1 k2 :
  _prepareCids k1 = _prepareCids k2 →
  (∀ now (w : Window), getItem Json k1 now w = getItem Json k2 now w) ∧
  (∀ v expire now (w : Window),
     setItem Json (JString k1) v expire now w = setItem Json (JString k2) v expire now w) ∧
  (∀ w : Window, removeItem k1 w = removeItem k2 w) ∧
  (∀ w : Window, exists_ k1 w = exists_ k2 w).
Proof.
  intros Hcid.
  assert (∀ w : Window, removeItem k1 w = removeItem k2 w) as Hrm.
  { intros w. unfold removeItem. by rewrite Hcid. }
  assert (∀ w : Window, exists_ k1 w = exists_ k2 w) as Hex.
  { intros w. unfold exists_, _exists. by rewrite Hcid. }
  split; [|split; [|split]]; trivial.
  - intros now w.
    destruct (lsExists w) eqn:Hw.
    + rewrite !getItem_available by assumption. by rewrite Hcid.
    + destruct w as [[st|]]; [discriminate|].
      change {| localStorage := None |} with unavailable.
      rewrite !getItem_unavailable. by rewrite Hcid.
  - intros v expire now w. rewrite !setItem_string_key. by rewrite Hcid.
Qed.

Lemma aliased_keys_share_entry_witness :
  _prepareCids "a$$" = _prepareCids "a$" ∧
  setItem JSON.lib (JString "a$$") (JNumber (Int 7)) JUndefined 0 (empty_store 100)
    = setItem JSON.lib (JString "a$") (JNumber (Int 7)) JUndefined 0 (empty_store 100).
Proof.
  split; [reflexivity|].
  apply (proj1 (proj2 (aliased_keys_share_entry JSON.lib "a$$" "a$" eq_refl))).
Defined.

(** ** What [setItem] returns *)

Lemma three_writes_true a x b y c z (st : Storage) :
  fst (try_catch
         (Storage_setItem a x ;; Storage_setItem b y ;; Storage_setItem c z ;; mret true)
         (λ _, mret false) {| localStorage := Some st |}) = Normal true ↔
  (usage (<[a:=x]> (items st)) ≤ quota st ∧
   usage (<[b:=y]> (<[a:=x]> (items st))) ≤ quota st ∧
   usage (<[c:=z]> (<[b:=y]> (<[a:=x]> (items st)))) ≤ quota st)%nat.
Proof.
  run. simpl. rewrite <- !Nat.leb_le.
  destruct (usage (<[a:=x]> (items st)) <=? quota st)%nat; simpl;
    [|split; [discriminate|intros (? & _); discriminate]].
  destruct (usage (<[b:=y]> (<[a:=x]> (items st))) <=? quota st)%nat; simpl;
    [|split; [discriminate|intros (_ & ? & _); discriminate]].
  destruct (usage (<[c:=z]> (<[b:=y]> (<[a:=x]> (items st)))) <=? quota st)%nat; simpl;
    [|split; [discriminate|intros (_ & _ & ?); discriminate]].
  by split.
Qed.

(** For a value and a time to live whose string forms the model
    determines, with an exact expiry, [setItem] returns [true] exactly
    when the key is a string, the value is no function, the switch makes
    a string of it, the time to live has a string form, there is a store,
    and the store takes the three writes one after the other. *)
Theorem setItem_returns_true_iff Json cacheId v expire now (w : Window) :
  safe_number v →
  exact_ttl expire now = true →
  fst (setItem Json cacheId v expire now w) = Normal true ↔
  ∃ key text printed st,
    cacheId = JString key ∧
    typeof v ≠ "function" ∧
    encode Json (typeof v) v = Normal (JString text) ∧
    ToString (effective_ttl expire) = Normal printed ∧
    localStorage w = Some st ∧
    fits key text (typeof v) (expiry printed now) st.
Proof.
  intros _ _. unfold effective_ttl, fits. split.
  - intros H.
    destruct (decide (typeof cacheId = "string")) as [Hk|Hk];
      [|rewrite setItem_other_key in H by assumption; discriminate H].
    destruct cacheId; try discriminate Hk. rename s into key.
    rewrite setItem_string_key in H.
    destruct (String.eqb_spec (typeof v) "function") as [Hf|Hf]; [discriminate H|].
    destruct (encode Json (typeof v) v) as [payload|e] eqn:He; [|discriminate H].
    destruct payload; try discriminate H. rename s into text.
    destruct (ToString _) as [printed|e] eqn:Hp; [|discriminate H].
    cbv zeta in H.
    destruct w as [[st|]]; [|discriminate H].
    apply three_writes_true in H as (H1 & H2 & H3).
    exists key, text, printed, st. cbv zeta. auto 10.
  - intros (key & text & printed & st & -> & Hf & He & Hp & Hst & Hfit).
    rewrite setItem_string_key.
    destruct (String.eqb_spec (typeof v) "function") as [Hf'|_]; [congruence|].
    rewrite He, Hp. cbv zeta.
    destruct w as [[st'|]]; simpl in Hst; [|discriminate]. injection Hst as ->.
    by apply three_writes_true.
Qed.

Lemma setItem_returns_true_iff_witness :
  safe_number (JBool true) ∧
  exact_ttl text_toString_ttl 0 = true ∧
  fst (setItem JSON.lib (JString "b") (JBool true) text_toString_ttl 0 roomy_entry)
    ≠ Normal true ∧
  ¬ ∃ key text printed st,
      JString "b" = JString key ∧
      typeof (JBool true) ≠ "function" ∧
      encode JSON.lib (typeof (JBool true)) (JBool true) = Normal (JString text) ∧
      ToString (effective_ttl text_toString_ttl) = Normal printed ∧
      localStorage roomy_entry = Some st ∧
      fits key text (typeof (JBool true)) (expiry printed 0) st.
Proof.
  assert (safe_number (JBool true)) as Hn by (intros z Hz; discriminate Hz).
  assert (fst (setItem JSON.lib (JString "b") (JBool true) text_toString_ttl 0 roomy_entry)
          ≠ Normal true) as H by (vm_compute; discriminate).
  split; [exact Hn|]. split; [reflexivity|]. split; [exact H|].
  intros Hfit. apply H.
  apply (proj2 (setItem_returns_true_iff JSON.lib (JString "b") (JBool true)
                 text_toString_ttl 0 roomy_entry Hn eq_refl) Hfit).
Defined.

(** For a time to live whose string form the model determines, an error
    leaves [setItem] exactly when the key is a string, the value is no
    function, and a conversion made before the [try] throws: the switch
    on the value (the serializer, or [toString] on [undefined]) or, once
    the switch has made a string, the string form of the time to live
    that [parseInt] asks for.  The window is then unchanged, and no fault
    of the store gets out. *)
Theorem setItem_throws_only_in_conversions Json cacheId v expire now (w : Window) e :
  printable (effective_ttl expire) = true →
  (∀ w', setItem Json cacheId v expire now w = (Throw e, w') → w' = w) ∧
  (fst (setItem Json cacheId v expire now w) = Throw e ↔
   typeof cacheId = "string" ∧
   typeof v ≠ "function" ∧
   (encode Json (typeof v) v = Throw e ∨
    (∃ text, encode Json (typeof v) v = Normal (JString text)) ∧
    ToString (effective_ttl expire) = Throw e)).
Proof.
  intros _. unfold effective_ttl.
  destruct (decide (typeof cacheId = "string")) as [Hk|Hk].
  2: { rewrite setItem_other_key by assumption. split; [discriminate|].
       split; [discriminate|]. by intros [? _]. }
  destruct cacheId; try discriminate Hk. rename s into key.
  rewrite setItem_string_key.
  destruct (String.eqb_spec (typeof v) "function") as [Hf|Hf].
  { split; [discriminate|]. split; [discriminate|]. by intros (_ & ? & _). }
  destruct (encode Json (typeof v) v) as [payload|e'] eqn:He.
  2: { split; [by intros w' [= _ <-]|]. simpl. split.
       - intros [= ->]. auto.
       - intros (_ & _ & [[= ->]|[[text Ht] _]]); [reflexivity|discriminate Ht]. }
  destruct payload as [| | | |text| | | | |];
    try (split; [discriminate|]; split; [discriminate|];
         intros (_ & _ & [Ht|[[text Ht] _]]); discriminate Ht).
  destruct (ToString _) as [printed|e'] eqn:Hp.
  2: { split; [by intros w' [= _ <-]|]. simpl. split.
       - intros [= ->]. eauto 10.
       - intros (_ & _ & [Ht|[_ [= ->]]]); [discriminate Ht|reflexivity]. }
  cbv zeta.
  destruct (three_writes (cid_data (_prepareCids key)) text
              (cid_type (_prepareCids key)) (typeof v)
              (cid_expire (_prepareCids key)) (expiry printed now) w)
    as [[E _]|[E|[[E _]|[E _]]]]; cbv zeta in E; rewrite E;
    (split; [discriminate|]; split; [discriminate|];
     intros (_ & _ & [Ht|[_ Ht]]); discriminate Ht).
Qed.

Lemma setItem_throws_only_in_conversions_witness :
  printable (effective_ttl text_toString_ttl) = true ∧
  typeof (JString "k") = "string" ∧
  typeof (JString "v") ≠ "function" ∧
  (∃ text, encode JSON.lib (typeof (JString "v")) (JString "v") = Normal (JString text)) ∧
  ToString (effective_ttl text_toString_ttl) = Throw TypeError ∧
  fst (setItem JSON.lib (JString "k") (JString "v") text_toString_ttl 0 (empty_store 100))
    = Throw TypeError.
Proof.
  assert (∃ text, encode JSON.lib (typeof (JString "v")) (JString "v")
                    = Normal (JString text)) as He by (by exists "v").
  split; [reflexivity|]. split; [reflexivity|]. split; [discriminate|].
  split; [exact He|]. split; [reflexivity|].
  apply (proj2 (proj2 (setItem_throws_only_in_conversions JSON.lib (JString "k")
                         (JString "v") text_toString_ttl 0 (empty_store 100) TypeError
                         eq_refl))).
  split; [reflexivity|]. split; [discriminate|]. right. split; [exact He|reflexivity].
Defined.

(** With a string, a number or a boolean as the value and a time to live
    that is neither a symbol nor an object, [setItem] returns a boolean
    on every window, whatever the key is. *)
Theorem setItem_primitive_returns Json cacheId v expire now (w : Window) :
  typeof v = "string" ∨ typeof v = "number" ∨ typeof v = "boolean" →
  typeof expire ≠ "symbol" → typeof expire ≠ "object" →
  ∃ b w', setItem Json cacheId v expire now w = (Normal b, w').
Proof.
  intros Hv Hs Ho.
  destruct (decide (typeof cacheId = "string")) as [Hk|Hk];
    [|rewrite setItem_other_key by assumption; eauto].
  destruct cacheId; try discriminate Hk. rename s into key.
  rewrite setItem_string_key.
  assert (String.eqb (typeof v) "function" = false ∧
          ∃ text, encode Json (typeof v) v = Normal (JString text)) as [-> [text ->]].
  { unfold encode.
    destruct v; simpl in *; try (destruct Hv as [Hv|[Hv|Hv]]; discriminate Hv); eauto. }
  assert (∃ printed,
            ToString (if truthy expire then expire else JNumber (Int defaultTime))
              = Normal printed) as [printed ->].
  { destruct expire as [| |b|n|s|d|z|f|l|l]; simpl in *; try congruence; eauto.
    - destruct b; eauto.
    - destruct n as [| | | |[|p|p]]; eauto.
    - destruct (negb _); eauto.
    - destruct (negb _); eauto. }
  cbv zeta.
  destruct (three_writes (cid_data (_prepareCids key)) text
              (cid_type (_prepareCids key)) (typeof v)
              (cid_expire (_prepareCids key)) (expiry printed now) w)
    as [[E _]|[E|[[E _]|[E _]]]]; cbv zeta in E; rewrite E; eauto.
Qed.

Lemma setItem_primitive_returns_witness :
  (typeof (JNumber NaN) = "string" ∨ typeof (JNumber NaN) = "number" ∨
   typeof (JNumber NaN) = "boolean") ∧
  typeof (JString "soon") ≠ "symbol" ∧ typeof (JString "soon") ≠ "object" ∧
  setItem JSON.lib (JString "k") (JNumber NaN) (JString "soon") 0 (empty_store 100)
    = (Normal true, with_entry "k" "NaN" "number" "NaN" (empty_store 100)) ∧
  ∃ b w', setItem JSON.lib (JString "k") (JNumber NaN) (JString "soon") 0 (empty_store 100)
            = (Normal b, w').
Proof.
  split; [right; left; reflexivity|]. split; [discriminate|]. split; [discriminate|].
  split; [vm_compute; reflexivity|].
  apply setItem_primitive_returns; [right; left; reflexivity|discriminate|discriminate].
Defined.

(** ** The time to live *)

Lemma getItem_after_writes Json k v text exp expireDate now' (w : Window) :
  reads_back Json v →
  encode Json (typeof v) v = Normal (JString text) →
  lsExists w = true →
  parseInt exp = Some expireDate →
  now' < expireDate →
  getItem Json k now' (with_entry k text (typeof v) exp w)
    = (Normal (success k v (expireDate - now')), with_entry k text (typeof v) exp w).
Proof.
  intros Hv He Hw Hparse Hlive.
  destruct (stored_after_writes k text (typeof v) exp w Hw) as (Hd & Hty & Hex & Hw').
  cbv zeta in *. fold (with_entry k text (typeof v) exp w) in *.
  rewrite getItem_available by assumption. cbv zeta.
  rewrite Hd, Hex, Hty. simpl item_text. rewrite Hparse.
  destruct (Z.ltb_spec now' expireDate); [|lia].
  by rewrite (encode_decode Json v text) by assumption.
Qed.

(** The time to live of an entry is what [parseInt] reads from the
    string form of the argument: a number, a numeric string, a string
    that starts with digits.  Until that many milliseconds after the
    [setItem], [getItem] returns the value and the time left.  The
    statement is for a value and a time to live whose string forms the
    model determines, and for a time to live and an expiry that are safe
    integers, where the sum and the difference of the code are exact. *)
Theorem setItem_getItem_parsed_ttl Json k v expire printed ttl now now' (w w' : Window) :
  reads_back Json v →
  safe_number v →
  printable (effective_ttl expire) = true →
  ToString (effective_ttl expire) = Normal printed →
  parseInt printed = Some ttl →
  0 <= now →
  - MAX_SAFE_INTEGER <= ttl →
  ttl + now <= MAX_SAFE_INTEGER →
  0 <= now' < ttl + now →
  setItem Json (JString k) v expire now w = (Normal true, w') →
  getItem Json k now' w' = (Normal (success k v (ttl + now - now')), w').
Proof.
  unfold effective_ttl. intros Hv _ _ Hp Hparse _ _ _ [_ Hlive] Hset.
  apply setItem_true in Hset
    as (key & text & printed' & [= <-] & Hf & He & Hp' & Hw & ->).
  rewrite Hp in Hp'. injection Hp' as <-.
  apply getItem_after_writes; trivial.
  unfold expiry. rewrite Hparse. apply parseInt_printed.
Qed.

Lemma setItem_getItem_parsed_ttl_witness :
  reads_back JSON.lib (JString "v") ∧
  safe_number (JString "v") ∧
  printable (effective_ttl (JString "15 minutes")) = true ∧
  ToString (effective_ttl (JString "15 minutes")) = Normal "15 minutes" ∧
  parseInt "15 minutes" = Some 15 ∧
  0 <= 1000 ∧
  - MAX_SAFE_INTEGER <= 15 ∧
  15 + 1000 <= MAX_SAFE_INTEGER ∧
  0 <= 1010 < 15 + 1000 ∧
  setItem JSON.lib (JString "k") (JString "v") (JString "15 minutes") 1000 (empty_store 100)
    = (Normal true, with_entry "k" "v" "string" "1015" (empty_store 100)) ∧
  getItem JSON.lib "k" 1010 (with_entry "k" "v" "string" "1015" (empty_store 100))
    = (Normal (success "k" (JString "v") (15 + 1000 - 1010)),
       with_entry "k" "v" "string" "1015" (empty_store 100)).
Proof.
  assert (reads_back JSON.lib (JString "v")) as Hv by (left; reflexivity).
  assert (safe_number (JString "v")) as Hn by (intros z Hz; discriminate Hz).
  assert (0 <= 1000) as Hnow by lia.
  assert (- MAX_SAFE_INTEGER <= 15) as Hlow by (vm_compute; discriminate).
  assert (15 + 1000 <= MAX_SAFE_INTEGER) as Hhigh by (vm_compute; discriminate).
  assert (0 <= 1010 < 15 + 1000) as Hlive by lia.
  assert (setItem JSON.lib (JString "k") (JString "v") (JString "15 minutes") 1000
            (empty_store 100)
          = (Normal true, with_entry "k" "v" "string" "1015" (empty_store 100))) as Hset
    by (vm_compute; reflexivity).
  split; [exact Hv|]. split; [exact Hn|]. split; [reflexivity|]. split; [reflexivity|].
  split; [reflexivity|]. split; [exact Hnow|]. split; [exact Hlow|].
  split; [exact Hhigh|]. split; [exact Hlive|]. split; [exact Hset|].
  apply (setItem_getItem_parsed_ttl JSON.lib "k" (JString "v") (JString "15 minutes")
           "15 minutes" 15 1000 1010 (empty_store 100)
           (with_entry "k" "v" "string" "1015" (empty_store 100))
           Hv Hn eq_refl eq_refl eq_refl Hnow Hlow Hhigh Hlive Hset).
Defined.

(** Without a time to live, or with a falsy one ([undefined], [null],
    [0], [NaN], the empty string, [false]), the entry lives for one hour:
    the stored expiry is the clock plus 3600000. *)
Theorem setItem_default_ttl Json k v expire now now' (w w' : Window) :
  truthy expire = false →
  reads_back Json v →
  now' < defaultTime + now →
  setItem Json (JString k) v expire now w = (Normal true, w') →
  stored w' (cid_expire (_prepareCids k)) = Some (Z_toString (defaultTime + now)) ∧
  getItem Json k now' w' = (Normal (success k v (defaultTime + now - now')), w').
Proof.
  intros Hfalsy Hv Hlive Hset.
  apply setItem_true in Hset
    as (key & text & printed & [= <-] & Hf & He & Hp & Hw & ->).
  rewrite Hfalsy in Hp. simpl in Hp. injection Hp as <-.
  assert (expiry (Z_toString defaultTime) now = Z_toString (defaultTime + now)) as ->.
  { unfold expiry. by rewrite parseInt_printed. }
  destruct (stored_after_writes k text (typeof v) (Z_toString (defaultTime + now)) w Hw)
    as (_ & _ & Hex & _).
  split; [exact Hex|].
  apply getItem_after_writes; trivial. apply parseInt_printed.
Qed.

Lemma setItem_default_ttl_witness :
  truthy (JNumber (Int 0)) = false ∧
  reads_back JSON.lib (JBool false) ∧
  500 < defaultTime + 0 ∧
  setItem JSON.lib (JString "k") (JBool false) (JNumber (Int 0)) 0 (empty_store 100)
    = (Normal true, with_entry "k" "false" "boolean" "3600000" (empty_store 100)) ∧
  stored (with_entry "k" "false" "boolean" "3600000" (empty_store 100))
    (cid_expire (_prepareCids "k")) = Some (Z_toString (defaultTime + 0)) ∧
  getItem JSON.lib "k" 500 (with_entry "k" "false" "boolean" "3600000" (empty_store 100))
    = (Normal (success "k" (JBool false) (defaultTime + 0 - 500)),
       with_entry "k" "false" "boolean" "3600000" (empty_store 100)).
Proof.
  assert (reads_back JSON.lib (JBool false)) as Hv by (right; left; reflexivity).
  assert (500 < defaultTime + 0) as Hlive by (vm_compute; reflexivity).
  assert (setItem JSON.lib (JString "k") (JBool false) (JNumber (Int 0)) 0 (empty_store 100)
    = (Normal true, with_entry "k" "false" "boolean" "3600000" (empty_store 100))) as Hset
    by (vm_compute; reflexivity).
  split; [reflexivity|]. split; [exact Hv|]. split; [exact Hlive|]. split; [exact Hset|].
  apply (setItem_default_ttl JSON.lib "k" (JBool false) (JNumber (Int 0)) 0 500 _ _
           eq_refl Hv Hlive Hset).
Defined.

(** A time to live that [parseInt] does not read as a number (a word, an
    infinity, a plain object without a [toString] of its own), and one
    that has run out (zero as a string, a negative number), make an entry
    that [getItem] never returns: it reports the entry expired and
    deletes it, and the next [getItem] finds no entry.  The statement is
    for a time to live whose string form the model determines; where
    [parseInt] reads a number, that number and the clocks are in the
    range of the safe integers. *)
Theorem setItem_unusable_ttl Json k v expire printed now now' now'' (w w' : Window) :
  printable (effective_ttl expire) = true →
  ToString (effective_ttl expire) = Normal printed →
  parseInt printed = None ∨
  (∃ ttl, parseInt printed = Some ttl ∧
          - MAX_SAFE_INTEGER <= ttl ∧ 0 <= now ∧
          ttl + now <= now' ∧ now' <= MAX_SAFE_INTEGER) →
  setItem Json (JString k) v expire now w = (Normal true, w') →
  getItem Json k now' w'
    = (Normal (failure k "Expired in cache"), without_entry k w') ∧
  getItem Json k now'' (without_entry k w')
    = (Normal (failure k "Cache key undefined"), without_entry k w').
Proof.
  unfold effective_ttl. intros _ Hp Hparse Hset.
  apply setItem_true in Hset
    as (key & text & printed' & [= <-] & Hf & He & Hp' & Hw & ->).
  rewrite Hp in Hp'. injection Hp' as <-.
  destruct (stored_after_writes k text (typeof v) (expiry printed now) w Hw)
    as (Hd & Hty & Hex & Hw').
  cbv zeta in *. split.
  - rewrite getItem_available by assumption. cbv zeta.
    rewrite Hd, Hex. simpl item_text. unfold expiry.
    destruct Hparse as [->|(ttl & -> & _ & _ & Hle & _)]; [reflexivity|].
    rewrite parseInt_printed.
    destruct (Z.ltb_spec now' (ttl + now)); [lia|reflexivity].
  - rewrite getItem_available by (by rewrite lsExists_without_entry). cbv zeta.
    rewrite stored_without_entry_in; [reflexivity|]. apply data_key_derived.
Qed.

Lemma setItem_unusable_ttl_witness :
  printable (effective_ttl (JObject [])) = true ∧
  ToString (effective_ttl (JObject [])) = Normal "[object Object]" ∧
  parseInt "[object Object]" = None ∧
  setItem JSON.lib (JString "k") (JString "x") (JObject []) 0 (empty_store 100)
    = (Normal true, nan_entry) ∧
  getItem JSON.lib "k" 1 nan_entry
    = (Normal (failure "k" "Expired in cache"), without_entry "k" nan_entry) ∧
  getItem JSON.lib "k" 2 (without_entry "k" nan_entry)
    = (Normal (failure "k" "Cache key undefined"), without_entry "k" nan_entry).
Proof.
  assert (setItem JSON.lib (JString "k") (JString "x") (JObject []) 0 (empty_store 100)
    = (Normal true, nan_entry)) as Hset by (vm_compute; reflexivity).
  split; [reflexivity|]. split; [reflexivity|]. split; [reflexivity|].
  split; [exact Hset|].
  apply (setItem_unusable_ttl JSON.lib "k" (JString "x") (JObject []) "[object Object]"
           0 1 2 (empty_store 100) nan_entry eq_refl eq_refl (or_introl eq_refl) Hset).
Defined.

(** ** Reading the stored text *)

(** On a live entry tagged [string] or [boolean], [getItem] succeeds
    whatever the stored text is: a string is returned as it is, and a
    boolean is [true] for the text ["true"] and [false] for any other
    text.  On one tagged [number] whose text is the decimal form of a
    safe integer, the data is that integer.  The clock and the stored
    expiry are in the range of the safe integers, where the comparison
    and the difference of the code are exact. *)
Theorem getItem_primitive_tags Json k now expireDate text tag (w : Window) :
  stored w (cid_data (_prepareCids k)) = Some text →
  stored w (cid_type (_prepareCids k)) = Some tag →
  parseInt (item_text (stored w (cid_expire (_prepareCids k)))) = Some expireDate →
  0 <= now < expireDate →
  expireDate <= MAX_SAFE_INTEGER →
  (tag = "string" →
     getItem Json k now w = (Normal (success k (JString text) (expireDate - now)), w)) ∧
  (tag = "boolean" →
     getItem Json k now w
       = (Normal (success k (JBool (String.eqb text "true")) (expireDate - now)), w)) ∧
  (tag = "number" →
     ∀ z, safe_integer z → text = Z_toString z →
     getItem Json k now w
       = (Normal (success k (JNumber (Int z)) (expireDate - now)), w)).
Proof.
  intros Hd Hty Hex [_ Hlive] _.
  assert (lsExists w = true) as Hw.
  { destruct w as [[st|]]; [reflexivity|discriminate]. }
  rewrite getItem_available by assumption. cbv zeta.
  rewrite Hd, Hty, Hex. destruct (Z.ltb_spec now expireDate); [|lia].
  split; [by intros ->|]. split; [by intros ->|].
  intros -> z _ ->.
  pose proof (StringToNumber_printed (Int z)) as Hn. simpl Number_toString in Hn.
  unfold decode. simpl. unfold Number_item. by rewrite Hn.
Qed.

Lemma getItem_primitive_tags_witness :
  stored (with_entry "k" "-12" "number" "100" (empty_store 100))
    (cid_data (_prepareCids "k")) = Some "-12" ∧
  stored (with_entry "k" "-12" "number" "100" (empty_store 100))
    (cid_type (_prepareCids "k")) = Some "number" ∧
  parseInt (item_text (stored (with_entry "k" "-12" "number" "100" (empty_store 100))
                         (cid_expire (_prepareCids "k")))) = Some 100 ∧
  0 <= 40 < 100 ∧
  100 <= MAX_SAFE_INTEGER ∧
  safe_integer (-12) ∧
  "-12" = Z_toString (-12) ∧
  getItem JSON.lib "k" 40 (with_entry "k" "-12" "number" "100" (empty_store 100))
    = (Normal (success "k" (JNumber (Int (-12))) (100 - 40)),
       with_entry "k" "-12" "number" "100" (empty_store 100)).
Proof.
  assert (stored (with_entry "k" "-12" "number" "100" (empty_store 100))
            (cid_data (_prepareCids "k")) = Some "-12") as Hd by (vm_compute; reflexivity).
  assert (stored (with_entry "k" "-12" "number" "100" (empty_store 100))
            (cid_type (_prepareCids "k")) = Some "number") as Hty
    by (vm_compute; reflexivity).
  assert (parseInt (item_text (stored (with_entry "k" "-12" "number" "100" (empty_store 100))
                                 (cid_expire (_prepareCids "k")))) = Some 100) as Hex
    by (vm_compute; reflexivity).
  assert (0 <= 40 < 100) as Hlive by lia.
  assert (100 <= MAX_SAFE_INTEGER) as Hhigh by (vm_compute; discriminate).
  assert (safe_integer (-12)) as Hz by (split; vm_compute; discriminate).
  assert ("-12" = Z_toString (-12)) as Htext by (vm_compute; reflexivity).
  split; [exact Hd|]. split; [exact Hty|]. split; [exact Hex|]. split; [exact Hlive|].
  split; [exact Hhigh|]. split; [exact Hz|]. split; [exact Htext|].
  apply (proj2 (proj2 (getItem_primitive_tags JSON.lib "k" 40 100 "-12" "number"
                         (with_entry "k" "-12" "number" "100" (empty_store 100))
                         Hd Hty Hex Hlive Hhigh)) eq_refl (-12) Hz Htext).
Defined.

(** ** Version 1.2 against version 1.3.1 *)

Lemma decode_1_2 Json myData tag d (w : Window) :
  error myData = None →
  V1_2.decode Json tag d w
    = (Completion_map as_1_2 (fst (decode Json myData tag d w)), w).
Proof.
  intros Herr. unfold V1_2.decode, decode. run.
  destruct (is_text tag "object").
  { destruct (unserialize Json _); simpl; unfold as_1_2; simpl;
      by rewrite ?Herr. }
  unfold as_1_2.
  repeat (destruct (is_text tag _); [simpl; by rewrite ?Herr|]).
  reflexivity.
Qed.

(** Where there is a store and a data string for the key, the [getItem]
    of version 1.2 does what the one of version 1.3.1 does: the same
    window afterwards, the same [result] and [data], and the same
    message but for the shorter one on expiry. *)
Theorem getItem_1_2_agrees Json k now (w : Window) :
  exists_ k w = (Normal true, w) →
  V1_2.getItem Json k now w
    = (Completion_map as_1_2 (fst (getItem Json k now w)), snd (getItem Json k now w)).
Proof.
  intros Hk.
  assert (lsExists w = true) as Hw.
  { destruct w as [[st|]]; [reflexivity|discriminate]. }
  rewrite exists_outcome in Hk.
  rewrite getItem_available by assumption. cbv zeta.
  destruct (stored w (cid_data (_prepareCids k))) as [text|] eqn:Hd; [|discriminate].
  unfold V1_2.getItem.
  unfold mbind at 1, M_bind at 1, bind at 1.
  assert (Storage_getItem (cid_expire (_prepareCids k)) w
          = (Normal (stored w (cid_expire (_prepareCids k))), w)) as ->.
  { destruct w as [[st|]]; [reflexivity|discriminate]. }
  destruct (parseInt _) as [expireDate|].
  2: { unfold mbind, M_bind, bind. by rewrite removeItem_outcome. }
  destruct (now <? expireDate).
  2: { unfold mbind, M_bind, bind. by rewrite removeItem_outcome. }
  unfold mbind at 1, M_bind at 1, bind at 1.
  assert (Storage_getItem (cid_type (_prepareCids k)) w
          = (Normal (stored w (cid_type (_prepareCids k))), w)) as ->.
  { destruct w as [[st|]]; [reflexivity|discriminate]. }
  unfold mbind at 1, M_bind at 1, bind at 1.
  assert (Storage_getItem (cid_data (_prepareCids k)) w
          = (Normal (stored w (cid_data (_prepareCids k))), w)) as ->.
  { destruct w as [[st|]]; [reflexivity|discriminate]. }
  rewrite Hd.
  rewrite (decode_1_2 Json {| cids := _prepareCids k; data := JString ""; error := None;
                              result := false; expires := expireDate - now |})
    by reflexivity.
  by rewrite (decode_window Json _ _ _ w).
Qed.

Lemma getItem_1_2_agrees_witness :
  exists_ "a" example_entry = (Normal true, example_entry) ∧
  V1_2.getItem JSON.lib "a" 100 example_entry
    = (Completion_map as_1_2 (fst (getItem JSON.lib "a" 100 example_entry)),
       snd (getItem JSON.lib "a" 100 example_entry)).
Proof.
  split; [vm_compute; reflexivity|].
  apply getItem_1_2_agrees. vm_compute. reflexivity.
Defined.

(** Version 1.2 does not ask whether the key has an entry.  With a store
    and no expiry that is still ahead, be it that nothing is stored for
    the key, it reports the key as expired and deletes the three derived
    keys. *)
Theorem getItem_1_2_without_expiry Json k now (w : Window) :
  lsExists w = true →
  (parseInt (item_text (stored w (cid_expire (_prepareCids k)))) = None ∨
   ∃ expireDate,
     parseInt (item_text (stored w (cid_expire (_prepareCids k)))) = Some expireDate ∧
     expireDate <= now) →
  V1_2.getItem Json k now w
    = (Normal {| V1_2.result := false; V1_2.data := JString "";
                 V1_2.error := Some "Expired" |},
       without_entry k w).
Proof.
  intros Hw Hex. unfold V1_2.getItem.
  unfold mbind at 1, M_bind at 1, bind at 1.
  assert (Storage_getItem (cid_expire (_prepareCids k)) w
          = (Normal (stored w (cid_expire (_prepareCids k))), w)) as ->.
  { destruct w as [[st|]]; [reflexivity|discriminate]. }
  destruct Hex as [->|(expireDate & -> & Hle)].
  - unfold mbind, M_bind, bind. by rewrite removeItem_outcome.
  - destruct (Z.ltb_spec now expireDate); [lia|].
    unfold mbind, M_bind, bind. by rewrite removeItem_outcome.
Qed.

Lemma getItem_1_2_without_expiry_witness :
  lsExists (written "cachier:type:a" "string" (empty_store 100)) = true ∧
  V1_2.getItem JSON.lib "a" 5 (written "cachier:type:a" "string" (empty_store 100))
    = (Normal {| V1_2.result := false; V1_2.data := JString "";
                 V1_2.error := Some "Expired" |},
       without_entry "a" (written "cachier:type:a" "string" (empty_store 100))) ∧
  stored (without_entry "a" (written "cachier:type:a" "string" (empty_store 100)))
    "cachier:type:a" = None.
Proof.
  split; [reflexivity|]. split; [|vm_compute; reflexivity].
  apply getItem_1_2_without_expiry; [reflexivity|left; vm_compute; reflexivity].
Defined.

(** ** A refused write over an entry *)

(** When [setItem] returns [false], the stored expiry of the key is the
    one from before the call.  If the window has changed at all, the data
    string is already the new text: a refused write leaves the new data
    under the expiry, and possibly the tag, of the entry it was to
    replace. *)
Theorem setItem_failure_keeps_expiry Json k v expire now (w w' : Window) :
  setItem Json (JString k) v expire now w = (Normal false, w') →
  stored w' (cid_expire (_prepareCids k)) = stored w (cid_expire (_prepareCids k)) ∧
  (w' ≠ w →
     ∃ text, encode Json (typeof v) v = Normal (JString text) ∧
             stored w' (cid_data (_prepareCids k)) = Some text).
Proof.
  rewrite setItem_string_key.
  destruct (cids_distinct k) as (Hdt & Hde & Hte).
  assert (∀ P : Prop, stored w (cid_expire (_prepareCids k))
                        = stored w (cid_expire (_prepareCids k)) ∧ (w ≠ w → P)) as Hsame.
  { intros P. split; [reflexivity|]. intros Hne. by destruct Hne. }
  destruct (String.eqb (typeof v) "function"); [intros [= <-]; apply Hsame|].
  destruct (encode Json (typeof v) v) as [payload|e]; [|discriminate].
  destruct payload; try (intros [= <-]; apply Hsame). rename s into text.
  destruct (ToString _) as [printed|e]; [|discriminate].
  cbv zeta.
  destruct (three_writes (cid_data (_prepareCids k)) text
              (cid_type (_prepareCids k)) (typeof v)
              (cid_expire (_prepareCids k)) (expiry printed now) w)
    as [[E _]|[E|[[E Hw]|[E Hw]]]]; cbv zeta in E; rewrite E; intros H;
    [discriminate H| | |];
    pose proof (f_equal snd H) as Hw'; cbn [snd] in Hw'; subst w'.
  - apply Hsame.
  - split; [by rewrite stored_written_ne by congruence|].
    intros _. exists text. split; [reflexivity|]. by apply stored_written_eq.
  - split; [by rewrite !stored_written_ne by congruence|].
    intros _. exists text. split; [reflexivity|].
    rewrite stored_written_ne by congruence. by apply stored_written_eq.
Qed.

Lemma setItem_failure_keeps_expiry_witness :
  setItem JSON.lib (JString "k") (JBool true) JUndefined 0 tight_entry
    = (Normal false, written "cachier:data:k" "true" tight_entry) ∧
  stored (written "cachier:data:k" "true" tight_entry) (cid_expire (_prepareCids "k"))
    = stored tight_entry (cid_expire (_prepareCids "k")) ∧
  getItem JSON.lib "k" 5 (written "cachier:data:k" "true" tight_entry)
    = (Normal (success "k" (JString "true") 95),
       written "cachier:data:k" "true" tight_entry).
Proof.
  assert (setItem JSON.lib (JString "k") (JBool true) JUndefined 0 tight_entry
    = (Normal false, written "cachier:data:k" "true" tight_entry)) as H
    by (vm_compute; reflexivity).
  split; [exact H|]. split; [|vm_compute; reflexivity].
  apply (proj1 (setItem_failure_keeps_expiry JSON.lib "k" _ _ _ _ _ H)).
Defined.
